(** * User registration: the registration service and its SQLAlchemy repository

    A shallow embedding of
      - [app/domain/registration_service.py]   ([RegistrationService.register])
      - [app/infrastructure/user_repository.py] ([SqlAlchemyUserRepository])
    together with models of the collaborators those two files call
    ([uuid.UUID], the SQLAlchemy session, the [users] table). *)

From Stdlib Require Import List String Ascii NArith ZArith Bool Arith Lia.
From Stdlib Require Import Eqdep_dec.
Import ListNotations.
Local Open Scope string_scope.

(* ================================================================== *)
(** ** Python [str] helpers used by [uuid.UUID]                        *)
(* ================================================================== *)

Module PyStr.

(** [s.startswith(p)], returning what follows the prefix. *)
Fixpoint drop_prefix (p s : list ascii) : option (list ascii) :=
  match p, s with
  | [], _ => Some s
  | a :: p', b :: s' => if Ascii.eqb a b then drop_prefix p' s' else None
  | _ :: _, [] => None
  end.

(** [s.replace(p, '')] for a non-empty [p]: occurrences are removed from
    left to right and do not overlap.  [skip] counts the characters of an
    occurrence that are still to be dropped. *)
Fixpoint remove_from (p : list ascii) (skip : nat) (s : list ascii)
  : list ascii :=
  match s with
  | [] => []
  | c :: s' =>
      match skip with
      | S k => remove_from p k s'
      | O =>
          match drop_prefix p s with
          | Some _ => remove_from p (Nat.pred (List.length p)) s'
          | None => c :: remove_from p 0 s'
          end
      end
  end.

Definition remove (p s : list ascii) : list ascii := remove_from p 0 s.

Fixpoint lstrip (cs : list ascii) (s : list ascii) : list ascii :=
  match s with
  | [] => []
  | c :: s' => if existsb (Ascii.eqb c) cs then lstrip cs s' else s
  end.

(** [s.strip(cs)]: characters of [cs] are removed at both ends. *)
Definition strip (cs s : list ascii) : list ascii :=
  rev (lstrip cs (rev (lstrip cs s))).

End PyStr.

(* ================================================================== *)
(** ** [uuid.UUID]                                                     *)
(* ================================================================== *)

(** A [UUID] object holds an integer [0 <= int < 1 << 128]; the constructor
    refuses anything else, which the second field records. *)
Record UUID : Type := mkUUID
  { uuid_int : N;
    uuid_range : (uuid_int <? N.shiftl 1 128)%N = true }.

Module Hex.

Definition digit (d : N) : ascii :=
  match d with
  | 0 => "0" | 1 => "1" | 2 => "2" | 3 => "3" | 4 => "4" | 5 => "5"
  | 6 => "6" | 7 => "7" | 8 => "8" | 9 => "9" | 10 => "a" | 11 => "b"
  | 12 => "c" | 13 => "d" | 14 => "e" | _ => "f"
  end%N%char.

(** ['%0wx' % n] for [n < 16^w]: [w] lower-case digits, most significant
    first. *)
Fixpoint format (w : nat) (n : N) : list ascii :=
  match w with
  | O => []
  | S w' => format w' (n / 16) ++ [digit (n mod 16)]
  end.

(** The value of a hexadecimal digit, by character code: ['0'..'9'] are
    48..57, ['a'..'f'] are 97..102 and ['A'..'F'] are 65..70. *)
Definition value (c : ascii) : option N :=
  let code := N_of_ascii c in
  (if (48 <=? code) && (code <=? 57) then Some (code - 48)
   else if (97 <=? code) && (code <=? 102) then Some (code - 87)
   else if (65 <=? code) && (code <=? 70) then Some (code - 55)
   else None)%N.

(** [int(s, 16)] on a string of hexadecimal digits.  Python also accepts
    a sign, a [0x] prefix, blanks around the number and underscores
    between digits; the model answers [None] for those spellings, which
    the repository never writes. *)
Fixpoint parse_from (acc : N) (s : list ascii) : option N :=
  match s with
  | [] => Some acc
  | c :: s' =>
      match value c with
      | Some d => parse_from (acc * 16 + d) s'
      | None => None
      end
  end.

Definition parse (s : list ascii) : option N := parse_from 0 s.

End Hex.

Definition slice (a b : nat) (l : list ascii) : list ascii :=
  firstn (b - a) (skipn a l).

Definition hyphen : ascii := "-"%char.

(** [UUID.__str__]:
<<
    hex = '%032x' % self.int
    return '%s-%s-%s-%s-%s' % (hex[:8], hex[8:12], hex[12:16], hex[16:20], hex[20:])
>> *)
Definition UUID_chars (u : UUID) : list ascii :=
  let hex := Hex.format 32 (uuid_int u) in
  firstn 8 hex ++ hyphen :: slice 8 12 hex ++ hyphen :: slice 12 16 hex
    ++ hyphen :: slice 16 20 hex ++ hyphen :: skipn 20 hex.

Definition UUID_str (u : UUID) : string :=
  string_of_list_ascii (UUID_chars u).

(** [UUID(int=n)]: the range check of the constructor. *)
Definition UUID_of_int (n : N) : option UUID :=
  match bool_dec (n <? N.shiftl 1 128)%N true with
  | left H => Some (mkUUID n H)
  | right _ => None
  end.

(** [UUID.__init__(hex)]:
<<
    hex = hex.replace('urn:', '').replace('uuid:', '')
    hex = hex.strip('{}').replace('-', '')
    if len(hex) != 32: raise ValueError('badly formed hexadecimal UUID string')
    int = int_(hex, 16)
>>
    [None] stands for the [ValueError]. *)
Definition UUID_parse (s : string) : option UUID :=
  let hex := list_ascii_of_string s in
  let hex := PyStr.remove (list_ascii_of_string "urn:") hex in
  let hex := PyStr.remove (list_ascii_of_string "uuid:") hex in
  let hex := PyStr.strip (list_ascii_of_string "{}") hex in
  let hex := PyStr.remove [hyphen] hex in
  if negb (Nat.eqb (List.length hex) 32) then None
  else match Hex.parse hex with
       | Some n => UUID_of_int n
       | None => None
       end.

Arguments UUID_parse : simpl never.
Arguments UUID_str : simpl never.

(* ================================================================== *)
(** ** Domain entity and storage row                                   *)
(* ================================================================== *)

(** A naive [datetime] (no [tzinfo]), as a count of microseconds: the code
    only copies these values, and a [DateTime] column gives a naive value
    back as it was written.  A timezone-aware value, whose offset some
    engines drop, is outside this type. *)
Definition datetime : Type := Z.

(** Modelled from the spec: [app/domain/user.py] is not part of the
    sources.  The spec's data model gives the entity five fields; the two
    files under study read and write exactly these five attributes. *)
Module User.
Record t : Type := make
  { id : UUID;
    email : string;
    hashed_password : string;
    created_at : datetime;
    is_active : bool }.
End User.

(** Modelled from the spec: [app/infrastructure/database.py] is not part of
    the sources.  The spec's schema: [id] is a string-encoded primary key,
    [email] a string under a unique constraint, then the hashed password, a
    timestamp and a boolean. *)
Module UserModel.
Record t : Type := make
  { id : string;
    email : string;
    hashed_password : string;
    created_at : datetime;
    is_active : bool }.
End UserModel.

(** A [User] object in memory: Python objects have an identity besides
    their attributes, and two calls of the constructor never give the same
    object.  No code under study assigns to an attribute of a [User], so an
    object is represented by its address and its attributes. *)
Record object : Type := mkObject
  { addr : nat;
    attrs : User.t }.

(* ================================================================== *)
(** ** The SQLAlchemy session over the [users] table                   *)
(* ================================================================== *)

(** [table] holds the committed rows in insertion order, [pending] the
    objects passed to [add] and not yet flushed, and [inactive] tells that a
    flush failed and the transaction waits for [rollback].  A flush that
    fails rolls its writes back and expunges the pending objects. *)
Record Session : Type := mkSession
  { table : list UserModel.t;
    pending : list UserModel.t;
    inactive : bool }.

Definition empty_session : Session :=
  {| table := []; pending := []; inactive := false |}.

(** The program state: the session the repository was built with, and the
    number of [User] objects constructed so far (the next free address). *)
Record World : Type := mkWorld
  { session : Session;
    allocated : nat }.

Inductive exn : Type :=
| IntegrityError
| PendingRollbackError
| InvalidRequestError
| ValueError (msg : string).

Inductive outcome (A : Type) : Type :=
| Return (a : A)
| Raise (e : exn).
Arguments Return {A} a.
Arguments Raise {A} e.

(** Computations that read and update the state and may raise. *)
Definition M (A : Type) : Type := World -> outcome A * World.

Definition ret {A} (a : A) : M A := fun w => (Return a, w).

Definition raise {A} (e : exn) : M A := fun w => (Raise e, w).

Definition bind {A B} (m : M A) (k : A -> M B) : M B :=
  fun w =>
    match m w with
    | (Return a, w') => k a w'
    | (Raise e, w') => (Raise e, w')
    end.

(** [try: body / except <class>: handler]; [handles] says which exceptions
    the clause names. *)
Definition try_except {A} (body : M A) (handles : exn -> bool)
    (handler : exn -> M A) : M A :=
  fun w =>
    match body w with
    | (Return a, w') => (Return a, w')
    | (Raise e, w') => if handles e then handler e w' else (Raise e, w')
    end.

Declare Scope py_scope.
Delimit Scope py_scope with py.
Notation "x <- m ;; k" := (bind m (fun x => k))
  (at level 61, m at next level, right associativity) : py_scope.
Notation "m ;; k" := (bind m (fun _ => k))
  (at level 61, right associativity) : py_scope.
Local Open Scope py_scope.

Definition get_session : M Session := fun w => (Return (session w), w).

Definition put_session (s : Session) : M unit :=
  fun w => (Return tt, {| session := s; allocated := allocated w |}).

Definition is_IntegrityError (e : exn) : bool :=
  match e with IntegrityError => true | _ => false end.

(** Does inserting [m] break the primary key on [id] or the unique
    constraint on [email]? *)
Definition violates (rows : list UserModel.t) (m : UserModel.t) : bool :=
  existsb (fun r => UserModel.id r =? UserModel.id m) rows
  || existsb (fun r => UserModel.email r =? UserModel.email m) rows.

(** The INSERTs of a flush, in the order of [add]; [None] when one of them
    is rejected. *)
Fixpoint flush (rows news : list UserModel.t) : option (list UserModel.t) :=
  match news with
  | [] => Some rows
  | m :: news' =>
      if violates rows m then None else flush (rows ++ [m]) news'
  end.

Definition session_add (m : UserModel.t) : M unit :=
  s <- get_session ;;
  put_session {| table := table s; pending := pending s ++ [m];
                 inactive := inactive s |}.

Definition session_commit : M unit :=
  s <- get_session ;;
  if inactive s then raise PendingRollbackError
  else match flush (table s) (pending s) with
       | Some rows =>
           put_session {| table := rows; pending := []; inactive := false |}
       | None =>
           put_session {| table := table s; pending := [];
                          inactive := true |} ;;
           raise IntegrityError
       end.

Definition session_rollback : M unit :=
  s <- get_session ;;
  put_session {| table := table s; pending := []; inactive := false |}.

(** [refresh] reloads the attributes of [m] from its row, found by primary
    key. *)
Definition session_refresh (m : UserModel.t) : M UserModel.t :=
  s <- get_session ;;
  if inactive s then raise PendingRollbackError
  else match find (fun r => UserModel.id r =? UserModel.id m) (table s) with
       | Some r => ret r
       | None => raise InvalidRequestError
       end.

(** [query(UserModel).filter(cond).first()].  A query first flushes what
    is pending (autoflush); the rows it then sees are the committed ones
    followed by the flushed ones.  After a flush that went through, the
    flushed rows stay in [pending]: they are written for good only by
    [commit]. *)
Definition session_query_first (cond : UserModel.t -> bool)
  : M (option UserModel.t) :=
  s <- get_session ;;
  if inactive s then raise PendingRollbackError
  else match flush (table s) (pending s) with
       | Some rows => ret (find cond rows)
       | None =>
           put_session {| table := table s; pending := [];
                          inactive := true |} ;;
           raise IntegrityError
       end.

(* ================================================================== *)
(** ** [User(...)]                                                     *)
(* ================================================================== *)

(** The constructor call: a new object, at the next free address. *)
Definition User_new (u : User.t) : M object :=
  fun w =>
    (Return {| addr := allocated w; attrs := u |},
     {| session := session w; allocated := S (allocated w) |}).

(** Modelled from the spec: [User(email=..., hashed_password=...)] of the
    missing [app/domain/user.py].  The identifier is generated at
    construction time, [created_at] is the time of construction and
    [is_active] defaults to true; [uuid4] and [now] are the results of the
    identifier generator and of the clock for this call. *)
Definition User_default (uuid4 : UUID) (now : datetime)
    (email hashed_password : string) : User.t :=
  {| User.id := uuid4; User.email := email;
     User.hashed_password := hashed_password;
     User.created_at := now; User.is_active := true |}.

(* ================================================================== *)
(** ** [SqlAlchemyUserRepository]                                      *)
(* ================================================================== *)

(** The interface [UserRepository] the registration service is written
    against. *)
Record UserRepository : Type := mkRepository
  { repo_save : object -> M object;
    repo_find_by_id : UUID -> M (option object);
    repo_find_by_email : string -> M (option object) }.

Definition badly_formed : string := "badly formed hexadecimal UUID string".

(** [UUID(user_model.id)] is not guarded: its [ValueError] leaves the
    function.  The message is that of the length check of [UUID]; for an
    [id] of 32 characters that are not all digits Python raises the
    [ValueError] of [int] instead, with another message. *)
Definition _to_domain_user (user_model : UserModel.t) : M object :=
  match UUID_parse (UserModel.id user_model) with
  | None => raise (ValueError badly_formed)
  | Some i =>
      User_new {| User.id := i;
                  User.email := UserModel.email user_model;
                  User.hashed_password := UserModel.hashed_password user_model;
                  User.created_at := UserModel.created_at user_model;
                  User.is_active := UserModel.is_active user_model |}
  end.

(** The row [save] builds from the domain object. *)
Definition to_user_model (user : User.t) : UserModel.t :=
  {| UserModel.id := UUID_str (User.id user);
     UserModel.email := User.email user;
     UserModel.hashed_password := User.hashed_password user;
     UserModel.created_at := User.created_at user;
     UserModel.is_active := User.is_active user |}.

Definition save (user : object) : M object :=
  let user_model := to_user_model (attrs user) in
  try_except
    (session_add user_model ;;
     session_commit ;;
     user_model <- session_refresh user_model ;;
     _to_domain_user user_model)
    is_IntegrityError
    (fun e => session_rollback ;; raise e).

Definition find_by_id (id : UUID) : M (option object) :=
  user_model <- session_query_first
                  (fun r => UserModel.id r =? UUID_str id) ;;
  match user_model with
  | None => ret None
  | Some user_model => u <- _to_domain_user user_model ;; ret (Some u)
  end.

Definition find_by_email (email : string) : M (option object) :=
  user_model <- session_query_first (fun r => UserModel.email r =? email) ;;
  match user_model with
  | None => ret None
  | Some user_model => u <- _to_domain_user user_model ;; ret (Some u)
  end.

Definition SqlAlchemyUserRepository : UserRepository :=
  {| repo_save := save;
     repo_find_by_id := find_by_id;
     repo_find_by_email := find_by_email |}.

(* ================================================================== *)
(** ** [RegistrationService]                                           *)
(* ================================================================== *)

Record RegistrationService : Type := mkService
  { _repository : UserRepository;
    _hasher : string -> string }.

Definition already_registered (email : string) : string :=
  "Email " ++ email ++ " is already registered".

(** [register]; [uuid4] and [now] are what the identifier generator and the
    clock give when line 22 constructs the user. *)
Definition register (self : RegistrationService) (uuid4 : UUID)
    (now : datetime) (email password : string) : M object :=
  existing <- repo_find_by_email (_repository self) email ;;
  match existing with
  | Some _ => raise (ValueError (already_registered email))
  | None =>
      let hashed := _hasher self password in
      user <- User_new (User_default uuid4 now email hashed) ;;
      repo_save (_repository self) user ;;
      ret user
  end.

Definition service (hasher : string -> string) : RegistrationService :=
  {| _repository := SqlAlchemyUserRepository; _hasher := hasher |}.

(* ================================================================== *)
(** ** Predicates used in the statements                               *)
(* ================================================================== *)

(** The characters [str] writes: hexadecimal digits and hyphens. *)
Definition canonical_char (c : ascii) : bool :=
  match Hex.value c with
  | Some _ => true
  | None => Ascii.eqb hyphen c
  end.

Definition hex_char (c : ascii) : bool :=
  match Hex.value c with Some _ => true | None => false end.

(** The [id] column of the row can be read back by [_to_domain_user]. *)
Definition row_ok (r : UserModel.t) : bool :=
  match UUID_parse (UserModel.id r) with Some _ => true | None => false end.

(** The session as the repository leaves it between two calls: no failed
    transaction, nothing pending, and every row readable. *)
Definition session_ok (s : Session) : bool :=
  negb (inactive s)
  && match pending s with [] => true | _ :: _ => false end
  && forallb row_ok (table s).

(** Some stored row has this email. *)
Definition email_taken (s : Session) (email : string) : bool :=
  existsb (fun r => UserModel.email r =? email) (table s).

(** Some stored row has this identifier. *)
Definition id_taken (s : Session) (id : UUID) : bool :=
  existsb (fun r => UserModel.id r =? UUID_str id) (table s).

(** The number of stored rows with this email. *)
Definition count_email (s : Session) (email : string) : nat :=
  List.length (filter (fun r => UserModel.email r =? email) (table s)).

(** The state of a world after [alloc] more objects were constructed. *)
Definition bump (alloc : nat) (w : World) : World :=
  {| session := session w; allocated := alloc + allocated w |}.

(** The state after one more row was committed. *)
Definition stored (m : UserModel.t) (s : Session) : Session :=
  {| table := table s ++ [m]; pending := []; inactive := false |}.

(** The worlds a sequence of [register] calls leads to from an empty
    store, whatever the hasher, the generated identifiers, the clock and
    the arguments of each call, and whether the call returns or raises. *)
Inductive reachable : World -> Prop :=
| reach_empty (n : nat) :
    reachable {| session := empty_session; allocated := n |}
| reach_register (w : World) (hasher : string -> string) (uuid4 : UUID)
    (now : datetime) (email password : string) :
    reachable w ->
    reachable (snd (register (service hasher) uuid4 now email password w)).

(** The worlds a sequence of [save] calls leads to from an empty store,
    with the users whose [save] returned, oldest first.  Lookups and the
    construction of users in between only move the allocation counter. *)
Inductive saves : list User.t -> World -> Prop :=
| saves_empty (n : nat) :
    saves [] {| session := empty_session; allocated := n |}
| saves_returned (us : list User.t) (w : World) (user saved : object)
    (w' : World) :
    saves us w -> save user w = (Return saved, w') ->
    saves (us ++ [attrs user]) w'
| saves_raised (us : list User.t) (w : World) (user : object) (e : exn)
    (w' : World) :
    saves us w -> save user w = (Raise e, w') -> saves us w'
| saves_alloc (us : list User.t) (w : World) (n : nat) :
    saves us w -> saves us (bump n w).

(** What a lookup lets its caller see: the attributes of the user it
    found, [None], or the exception. *)
Definition seen (r : outcome (option object) * World)
  : outcome (option User.t) :=
  match fst r with
  | Return found => Return (option_map attrs found)
  | Raise e => Raise e
  end.

(** The worlds a sequence of [register] calls leads to from [w]. *)
Inductive registers (w : World) : World -> Prop :=
| registers_none : registers w w
| registers_more (w' : World) (hasher : string -> string) (uuid4 : UUID)
    (now : datetime) (email password : string) :
    registers w w' ->
    registers w (snd (register (service hasher) uuid4 now email password w')).

(** The body shared by [find_by_id] and [find_by_email], which differ in
    the filter only. *)
Definition lookup (cond : UserModel.t -> bool) : M (option object) :=
  user_model <- session_query_first cond ;;
  match user_model with
  | None => ret None
  | Some user_model => u <- _to_domain_user user_model ;; ret (Some u)
  end.

(** The attributes [_to_domain_user] gives a row whose [id] reads as [i]. *)
Definition row_attrs (i : UUID) (r : UserModel.t) : User.t :=
  {| User.id := i;
     User.email := UserModel.email r;
     User.hashed_password := UserModel.hashed_password r;
     User.created_at := UserModel.created_at r;
     User.is_active := UserModel.is_active r |}.

(** The string [UUID.__init__] measures and hands to [int(hex, 16)]: its
    argument without [urn:], [uuid:], surrounding braces and hyphens. *)
Definition UUID_hex (s : string) : list ascii :=
  PyStr.remove [hyphen]
    (PyStr.strip (list_ascii_of_string "{}")
       (PyStr.remove (list_ascii_of_string "uuid:")
          (PyStr.remove (list_ascii_of_string "urn:")
             (list_ascii_of_string s)))).

(* ================================================================== *)
(** ** [example_data_separation.py]: sessions and tokens                *)
(* ================================================================== *)

(** A Python [dict] with [str] keys: the items in insertion order.
    Assigning to a key that is present replaces its value in place. *)
Module Dict.

Fixpoint set {V : Type} (key : string) (value : V) (d : list (string * V))
  : list (string * V) :=
  match d with
  | [] => [(key, value)]
  | (k, v) :: d' =>
      if k =? key then (k, value) :: d' else (k, v) :: set key value d'
  end.

(** [d.get(key)]. *)
Fixpoint get {V : Type} (key : string) (d : list (string * V)) : option V :=
  match d with
  | [] => None
  | (k, v) :: d' => if k =? key then Some v else get key d'
  end.

End Dict.

(** [MockRedis], the client the module builds when the [redis] package
    cannot be imported. *)
Record MockRedis : Type := mkMockRedis
  { data : list (string * string) }.

(** The constructor: an empty [data], whatever the keyword arguments. *)
Definition MockRedis_init : MockRedis := {| data := [] |}.

(** [timedelta(hours=h)], in seconds. *)
Definition timedelta_hours (h : Z) : Z := (h * 3600)%Z.

(** [setex(key, time, value)]: the expiry [time] is not used. *)
Definition MockRedis_setex (self : MockRedis) (key : string) (time : Z)
    (value : string) : MockRedis :=
  {| data := Dict.set key value (data self) |}.

Definition MockRedis_get (self : MockRedis) (key : string) : option string :=
  Dict.get key (data self).

Definition session_key (user_id : string) : string := "session:" ++ user_id.

(** [save_user_session] on the mock client; [json_dumps] is [json.dumps] on
    the type [D] of the session data. *)
Definition save_user_session {D : Type} (json_dumps : D -> string)
    (user_id : string) (session_data : D) (redis_client : MockRedis)
  : MockRedis :=
  MockRedis_setex redis_client (session_key user_id) (timedelta_hours 24)
    (json_dumps session_data).

(** The truth value of a [str]: false for the empty string only. *)
Definition str_bool (s : string) : bool :=
  match s with EmptyString => false | String _ _ => true end.

(** [get_user_session] on the mock client:
    [json.loads(data) if data else None]; [json_loads] is [json.loads], with
    whatever it answers or raises in [R]. *)
Definition get_user_session {R : Type} (json_loads : string -> R)
    (user_id : string) (redis_client : MockRedis) : option R :=
  match MockRedis_get redis_client (session_key user_id) with
  | Some data => if str_bool data then Some (json_loads data) else None
  | None => None
  end.

(** [generate_jwt_token], on the identifier [login_user] passes:
    [f"jwt_token_{user_id}"] formats a [UUID] with [str]. *)
Definition generate_jwt_token (user_id : UUID) : string :=
  "jwt_token_" ++ UUID_str user_id.

(* ================================================================== *)
(** ** Sample data                                                     *)
(* ================================================================== *)

Module Sample.

Definition id_a : UUID :=
  mkUUID 0x123e4567e89b42d3a456426614174000%N eq_refl.

Definition id_b : UUID :=
  mkUUID 0x9f1c2b3a4d5e4f60817293a4b5c6d7e8%N eq_refl.

(** A stand-in hasher, as a test would inject it. *)
Definition tag_hasher (password : string) : string := "hashed:" ++ password.

(** The hasher that returns its argument. *)
Definition plain_hasher (password : string) : string := password.

Definition empty_world : World :=
  {| session := empty_session; allocated := 0 |}.

Definition test_user : User.t :=
  User_default id_a 1700000000%Z "test@example.com" "hashed_password_123".

Definition test_object : object := {| addr := 0; attrs := test_user |}.

(** The world after [test_object] was constructed and saved. *)
Definition test_world : World :=
  {| session := stored (to_user_model test_user) empty_session;
     allocated := 2 |}.

End Sample.

(* ================================================================== *)
(** * Properties                                                       *)
(* ================================================================== *)

(** ** The string form of an identifier is read back as that identifier *)

Lemma UUID_eq (a b : UUID) : uuid_int a = uuid_int b -> a = b.
Proof.
  destruct a as [n Hn], b as [m Hm]; simpl; intros ->.
  f_equal. apply UIP_dec, bool_dec.
Qed.

Lemma UUID_of_int_uuid_int (u : UUID) : UUID_of_int (uuid_int u) = Some u.
Proof.
  unfold UUID_of_int.
  destruct (bool_dec (uuid_int u <? N.shiftl 1 128)%N true) as [H | H].
  - f_equal. now apply UUID_eq.
  - destruct H. apply uuid_range.
Qed.

Lemma digit_value (d : N) : (d < 16)%N -> Hex.value (Hex.digit d) = Some d.
Proof.
  intros H. destruct d as [| p]; [reflexivity |].
  do 4 (destruct p as [p | p |]; try reflexivity); exfalso; lia.
Qed.

Lemma digit_hex_char (d : N) : hex_char (Hex.digit d) = true.
Proof.
  destruct d as [| p]; [reflexivity |].
  do 4 (destruct p as [p | p |]; try reflexivity).
Qed.

Lemma format_length (w : nat) (n : N) : List.length (Hex.format w n) = w.
Proof.
  revert n; induction w as [| w IH]; intros n; simpl; [reflexivity |].
  rewrite length_app, IH. simpl. lia.
Qed.

Lemma format_hex_chars (w : nat) (n : N) :
  forallb hex_char (Hex.format w n) = true.
Proof.
  revert n; induction w as [| w IH]; intros n; simpl; [reflexivity |].
  rewrite forallb_app, IH. simpl. now rewrite digit_hex_char.
Qed.

Lemma parse_from_app (acc : N) (l1 l2 : list ascii) :
  Hex.parse_from acc (l1 ++ l2)%list =
  match Hex.parse_from acc l1 with
  | Some a => Hex.parse_from a l2
  | None => None
  end.
Proof.
  revert acc; induction l1 as [| c l1 IH]; intros acc; simpl; [reflexivity |].
  destruct (Hex.value c); [apply IH | reflexivity].
Qed.

Lemma parse_from_format (w : nat) (n acc : N) :
  Hex.parse_from acc (Hex.format w n)
  = Some (acc * 16 ^ N.of_nat w + n mod 16 ^ N.of_nat w)%N.
Proof.
  revert n acc; induction w as [| w IH]; intros n acc.
  - simpl. f_equal. rewrite N.mod_1_r. lia.
  - cbn [Hex.format]. rewrite parse_from_app, IH.
    cbn [Hex.parse_from].
    rewrite digit_value by (apply N.mod_upper_bound; discriminate).
    f_equal. rewrite Nat2N.inj_succ, N.pow_succ_r'.
    rewrite (N.Div0.mod_mul_r n 16 (16 ^ N.of_nat w)). lia.
Qed.

Lemma parse_format_32 (u : UUID) :
  Hex.parse (Hex.format 32 (uuid_int u)) = Some (uuid_int u).
Proof.
  unfold Hex.parse. rewrite parse_from_format. f_equal.
  rewrite N.mul_0_l, N.add_0_l. apply N.mod_small.
  pose proof (uuid_range u) as H. apply N.ltb_lt in H.
  exact H.
Qed.

Lemma forallb_firstn {A} (f : A -> bool) (n : nat) (l : list A) :
  forallb f l = true -> forallb f (firstn n l) = true.
Proof.
  revert n; induction l as [| a l IH]; intros [| n]; simpl; try reflexivity.
  intros H. apply andb_true_iff in H as [-> H]. now apply IH.
Qed.

Lemma forallb_skipn {A} (f : A -> bool) (n : nat) (l : list A) :
  forallb f l = true -> forallb f (skipn n l) = true.
Proof.
  revert n; induction l as [| a l IH]; intros [| n]; simpl; try reflexivity.
  - easy.
  - intros H. apply andb_true_iff in H as [_ H]. now apply IH.
Qed.

Lemma slice_skipn (a b : nat) (l : list ascii) :
  a <= b -> (slice a b l ++ skipn b l)%list = skipn a l.
Proof.
  intros H. unfold slice.
  replace (skipn b l) with (skipn (b - a) (skipn a l)).
  - apply firstn_skipn.
  - rewrite skipn_skipn. f_equal. lia.
Qed.

Lemma hex_char_not_hyphen (c : ascii) :
  hex_char c = true -> negb (Ascii.eqb hyphen c) = true.
Proof.
  destruct c as [[] [] [] [] [] [] [] []]; try reflexivity; discriminate.
Qed.

Lemma hex_char_canonical (c : ascii) :
  hex_char c = true -> canonical_char c = true.
Proof.
  unfold hex_char, canonical_char. now destruct (Hex.value c).
Qed.

Lemma canonical_char_spec (c : ascii) :
  canonical_char c = true ->
  Ascii.eqb "u" c = false
  /\ existsb (Ascii.eqb c) (list_ascii_of_string "{}") = false.
Proof.
  destruct c as [[] [] [] [] [] [] [] []];
    try (split; reflexivity); discriminate.
Qed.

Lemma forallb_impl {A} (f g : A -> bool) (l : list A) :
  (forall a, f a = true -> g a = true) ->
  forallb f l = true -> forallb g l = true.
Proof.
  intros Hfg; induction l as [| a l IH]; simpl; [reflexivity |].
  intros H. apply andb_true_iff in H as [Ha Hl].
  now rewrite (Hfg _ Ha), IH.
Qed.

Lemma remove_absent (a : ascii) (p s : list ascii) :
  forallb (fun c => negb (Ascii.eqb a c)) s = true ->
  PyStr.remove (a :: p) s = s.
Proof.
  unfold PyStr.remove. induction s as [| c s IH]; [reflexivity |].
  cbn [forallb]. intros H. apply andb_true_iff in H as [Hc Hs].
  apply negb_true_iff in Hc.
  cbn [PyStr.remove_from PyStr.drop_prefix]. rewrite Hc.
  now rewrite IH.
Qed.

Lemma remove_hyphen_filter (s : list ascii) :
  PyStr.remove [hyphen] s = filter (fun c => negb (Ascii.eqb hyphen c)) s.
Proof.
  unfold PyStr.remove. induction s as [| c s IH]; [reflexivity |].
  cbn [PyStr.remove_from PyStr.drop_prefix filter List.length Nat.pred].
  destruct (Ascii.eqb hyphen c); simpl; now rewrite IH.
Qed.

Lemma lstrip_absent (cs s : list ascii) :
  forallb (fun c => negb (existsb (Ascii.eqb c) cs)) s = true ->
  PyStr.lstrip cs s = s.
Proof.
  destruct s as [| c s]; [reflexivity |].
  cbn [forallb PyStr.lstrip]. intros H.
  apply andb_true_iff in H as [Hc _]. apply negb_true_iff in Hc.
  now rewrite Hc.
Qed.

Lemma forallb_rev {A} (f : A -> bool) (l : list A) :
  forallb f l = true -> forallb f (rev l) = true.
Proof.
  intros H. apply forallb_forall. intros a Ha.
  apply in_rev in Ha. revert a Ha. now apply forallb_forall.
Qed.

Lemma strip_absent (cs s : list ascii) :
  forallb (fun c => negb (existsb (Ascii.eqb c) cs)) s = true ->
  PyStr.strip cs s = s.
Proof.
  intros H. unfold PyStr.strip.
  rewrite (lstrip_absent _ _ H).
  rewrite (lstrip_absent _ _ (forallb_rev _ _ H)).
  apply rev_involutive.
Qed.

Lemma UUID_chars_canonical (u : UUID) :
  forallb canonical_char (UUID_chars u) = true.
Proof.
  unfold UUID_chars, slice.
  pose proof (forallb_impl _ _ _ hex_char_canonical
                (format_hex_chars 32 (uuid_int u))) as H.
  repeat (rewrite forallb_app || cbn [forallb]).
  rewrite !forallb_firstn, !forallb_skipn;
    auto using forallb_firstn, forallb_skipn.
Qed.

Lemma UUID_chars_unhyphen (u : UUID) :
  filter (fun c => negb (Ascii.eqb hyphen c)) (UUID_chars u)
  = Hex.format 32 (uuid_int u).
Proof.
  unfold UUID_chars.
  pose proof (forallb_impl _ _ _ hex_char_not_hyphen
                (format_hex_chars 32 (uuid_int u))) as H.
  set (hex := Hex.format 32 (uuid_int u)) in *.
  assert (Hid : forall l, forallb (fun c => negb (Ascii.eqb hyphen c)) l = true
                          -> filter (fun c => negb (Ascii.eqb hyphen c)) l = l)
    by (intros l; apply forallb_filter_id).
  repeat (rewrite filter_app; cbn [filter]).
  change (negb (Ascii.eqb hyphen hyphen)) with false. cbv iota.
  unfold slice at 1 2 3.
  rewrite !Hid by auto using forallb_firstn, forallb_skipn.
  fold (slice 8 12 hex) (slice 12 16 hex) (slice 16 20 hex).
  rewrite (slice_skipn 16 20), (slice_skipn 12 16), (slice_skipn 8 12)
    by lia.
  apply firstn_skipn.
Qed.

(** [UUID(str(u)) == u]. *)
Lemma UUID_parse_str (u : UUID) : UUID_parse (UUID_str u) = Some u.
Proof.
  unfold UUID_parse, UUID_str.
  rewrite list_ascii_of_string_of_list_ascii.
  pose proof (UUID_chars_canonical u) as Hc.
  assert (Hu : forallb (fun c => negb (Ascii.eqb "u" c)) (UUID_chars u) = true).
  { revert Hc. apply forallb_impl. intros c Hcc.
    apply canonical_char_spec in Hcc as [H _]. now rewrite H. }
  assert (Hb : forallb (fun c => negb (existsb (Ascii.eqb c)
                                        (list_ascii_of_string "{}")))
                 (UUID_chars u) = true).
  { revert Hc. apply forallb_impl. intros c Hcc.
    apply canonical_char_spec in Hcc as [_ H]. now rewrite H. }
  cbn [list_ascii_of_string] in *.
  rewrite (remove_absent "u"%char _ _ Hu), (remove_absent "u"%char _ _ Hu).
  rewrite (strip_absent _ _ Hb).
  rewrite remove_hyphen_filter, UUID_chars_unhyphen.
  rewrite format_length. cbn [Nat.eqb negb].
  rewrite parse_format_32. apply UUID_of_int_uuid_int.
Qed.

Lemma UUID_str_inj (a b : UUID) : UUID_str a = UUID_str b -> a = b.
Proof.
  intros H. pose proof (UUID_parse_str a) as Ha.
  rewrite H, UUID_parse_str in Ha. congruence.
Qed.

Lemma UUID_chars_length (u : UUID) : List.length (UUID_chars u) = 36.
Proof.
  unfold UUID_chars, slice.
  repeat (rewrite length_app || cbn [List.length]).
  rewrite !length_firstn, !length_skipn, format_length. reflexivity.
Qed.

Lemma UUID_str_length (u : UUID) : String.length (UUID_str u) = 36.
Proof.
  unfold UUID_str.
  rewrite <- (UUID_chars_length u).
  generalize (UUID_chars u) as l.
  induction l as [| c l IH]; simpl; congruence.
Qed.

(** ** The session between two repository calls *)

Lemma session_ok_inv (s : Session) :
  session_ok s = true ->
  pending s = [] /\ inactive s = false /\ forallb row_ok (table s) = true.
Proof.
  destruct s as [t p i]; unfold session_ok; simpl.
  destruct i; [discriminate |]. destruct p; [| discriminate].
  simpl. auto.
Qed.

Lemma email_taken_false (s : Session) (email : string) :
  email_taken s email = false ->
  find (fun r => UserModel.email r =? email) (table s) = None.
Proof.
  unfold email_taken. induction (table s) as [| r t IH]; simpl; [easy |].
  destruct (UserModel.email r =? email); [discriminate | exact IH].
Qed.

Lemma email_taken_true (s : Session) (email : string) :
  email_taken s email = true ->
  exists r, find (fun r => UserModel.email r =? email) (table s) = Some r
            /\ In r (table s) /\ UserModel.email r = email.
Proof.
  unfold email_taken. induction (table s) as [| r t IH]; simpl; [easy |].
  destruct (UserModel.email r =? email) eqn:E.
  - intros _. exists r. apply String.eqb_eq in E. auto.
  - intros H. destruct (IH H) as (r' & Hf & Hin & He). eauto.
Qed.

Lemma id_taken_false (s : Session) (id : UUID) :
  id_taken s id = false ->
  find (fun r => UserModel.id r =? UUID_str id) (table s) = None.
Proof.
  unfold id_taken. induction (table s) as [| r t IH]; simpl; [easy |].
  destruct (UserModel.id r =? UUID_str id); [discriminate | exact IH].
Qed.

Lemma find_app_none {A} (f : A -> bool) (l : list A) (a : A) :
  find f l = None -> f a = true -> find f (l ++ [a]) = Some a.
Proof.
  induction l as [| b l IH]; simpl.
  - now intros _ ->.
  - destruct (f b); [discriminate | exact IH].
Qed.

Lemma forallb_row_ok (t : list UserModel.t) (r : UserModel.t) :
  forallb row_ok t = true -> In r t ->
  exists i, UUID_parse (UserModel.id r) = Some i.
Proof.
  intros H Hin. rewrite forallb_forall in H. specialize (H r Hin).
  unfold row_ok in H. destruct (UUID_parse (UserModel.id r)); [eauto | easy].
Qed.

Lemma violates_spec (s : Session) (u : User.t) :
  violates (table s) (to_user_model u)
  = id_taken s (User.id u) || email_taken s (User.email u).
Proof. reflexivity. Qed.

(** ** The repository on such a session *)

Lemma query_first_ok (cond : UserModel.t -> bool) (w : World) :
  session_ok (session w) = true ->
  session_query_first cond w = (Return (find cond (table (session w))), w).
Proof.
  intros H. destruct (session_ok_inv _ H) as (Hp & Hi & _).
  destruct w as [[t p i] n]; simpl in *; subst p i.
  reflexivity.
Qed.

Lemma to_domain_user_ok (r : UserModel.t) (i : UUID) (w : World) :
  UUID_parse (UserModel.id r) = Some i ->
  _to_domain_user r w
  = (Return {| addr := allocated w;
               attrs := {| User.id := i;
                           User.email := UserModel.email r;
                           User.hashed_password := UserModel.hashed_password r;
                           User.created_at := UserModel.created_at r;
                           User.is_active := UserModel.is_active r |} |},
     bump 1 w).
Proof.
  intros H. unfold _to_domain_user. rewrite H. reflexivity.
Qed.

Lemma to_domain_user_of_model (u : User.t) (w : World) :
  _to_domain_user (to_user_model u) w
  = (Return {| addr := allocated w; attrs := u |}, bump 1 w).
Proof.
  rewrite (to_domain_user_ok _ (User.id u)) by apply UUID_parse_str.
  now destruct u.
Qed.

Lemma find_by_email_miss (email : string) (w : World) :
  session_ok (session w) = true ->
  email_taken (session w) email = false ->
  find_by_email email w = (Return None, w).
Proof.
  intros Hok H. unfold find_by_email, bind.
  rewrite query_first_ok by assumption.
  now rewrite email_taken_false.
Qed.

Lemma find_by_id_miss (id : UUID) (w : World) :
  session_ok (session w) = true ->
  id_taken (session w) id = false ->
  find_by_id id w = (Return None, w).
Proof.
  intros Hok H. unfold find_by_id, bind.
  rewrite query_first_ok by assumption.
  now rewrite id_taken_false.
Qed.

Lemma find_by_email_hit (email : string) (w : World) :
  session_ok (session w) = true ->
  email_taken (session w) email = true ->
  exists found,
    find_by_email email w = (Return (Some found), bump 1 w)
    /\ User.email (attrs found) = email.
Proof.
  intros Hok H. destruct (session_ok_inv _ Hok) as (_ & _ & Hrows).
  destruct (email_taken_true _ _ H) as (r & Hf & Hin & He).
  destruct (forallb_row_ok _ _ Hrows Hin) as [i Hi].
  unfold find_by_email, bind.
  rewrite query_first_ok by assumption. rewrite Hf.
  rewrite (to_domain_user_ok _ i) by assumption.
  eexists; split; [reflexivity | exact He].
Qed.

Lemma save_fresh (user : object) (w : World) :
  session_ok (session w) = true ->
  violates (table (session w)) (to_user_model (attrs user)) = false ->
  save user w
  = (Return {| addr := allocated w; attrs := attrs user |},
     {| session := stored (to_user_model (attrs user)) (session w);
        allocated := S (allocated w) |}).
Proof.
  intros Hok Hv. destruct (session_ok_inv _ Hok) as (Hp & Hi & _).
  destruct w as [[t p i] n]; simpl in *; subst p i.
  unfold save, try_except, bind, session_add, session_commit,
    session_refresh, get_session, put_session, ret, bind; simpl.
  rewrite Hv; simpl.
  rewrite (find_app_none _ _ (to_user_model (attrs user))).
  - rewrite to_domain_user_of_model. reflexivity.
  - apply orb_false_iff in Hv as [Hid _].
    clear -Hid. induction t as [| r t IH]; simpl in *; [easy |].
    destruct (UserModel.id r =? UUID_str (User.id (attrs user)));
      [discriminate | auto].
  - apply String.eqb_refl.
Qed.

Lemma save_rejected (user : object) (w : World) :
  session_ok (session w) = true ->
  violates (table (session w)) (to_user_model (attrs user)) = true ->
  save user w = (Raise IntegrityError, w).
Proof.
  intros Hok Hv. destruct (session_ok_inv _ Hok) as (Hp & Hi & _).
  destruct w as [[t p i] n]; simpl in *; subst p i.
  unfold save, try_except, bind, session_add, session_commit,
    session_rollback, get_session, put_session, raise, bind; simpl.
  rewrite Hv; simpl. reflexivity.
Qed.

(** ** The repository on any session *)

Lemma flush_app (rows news more : list UserModel.t) :
  flush rows (news ++ more)
  = match flush rows news with
    | Some rows' => flush rows' more
    | None => None
    end.
Proof.
  revert rows; induction news as [| m news IH]; intros rows; simpl;
    [reflexivity |].
  destruct (violates rows m); [reflexivity | apply IH].
Qed.

Lemma existsb_false_find {A} (f : A -> bool) (l : list A) :
  existsb f l = false -> find f l = None.
Proof.
  induction l as [| a l IH]; simpl; [reflexivity |].
  destruct (f a); [discriminate | exact IH].
Qed.

Lemma violates_false (rows : list UserModel.t) (m : UserModel.t) :
  violates rows m = false ->
  find (fun r => UserModel.id r =? UserModel.id m) rows = None
  /\ find (fun r => UserModel.email r =? UserModel.email m) rows = None.
Proof.
  unfold violates. intros H. apply orb_false_iff in H as [Hi He].
  split; now apply existsb_false_find.
Qed.

(** What a returning [save] went through, whatever the session was: the
    transaction was usable, what was pending could be flushed, the new row
    broke no constraint, and the session is left clean with that row
    last. *)
Lemma save_return_inv (user saved : object) (w w' : World) :
  save user w = (Return saved, w') ->
  exists rows,
    inactive (session w) = false
    /\ flush (table (session w)) (pending (session w)) = Some rows
    /\ violates rows (to_user_model (attrs user)) = false
    /\ saved = {| addr := allocated w; attrs := attrs user |}
    /\ w' = {| session := {| table := rows ++ [to_user_model (attrs user)];
                             pending := []; inactive := false |};
               allocated := S (allocated w) |}.
Proof.
  destruct w as [[t p i] n].
  unfold save, try_except, bind, session_add, session_commit,
    session_refresh, session_rollback, get_session, put_session, ret, raise,
    bind.
  cbn [session table pending inactive allocated].
  destruct i; [discriminate |].
  rewrite flush_app.
  destruct (flush t p) as [rows |] eqn:F; [| discriminate].
  cbn [flush].
  destruct (violates rows (to_user_model (attrs user))) eqn:Hv;
    [discriminate |].
  cbn [session table pending inactive allocated].
  destruct (violates_false _ _ Hv) as [Hi _].
  rewrite (find_app_none _ rows (to_user_model (attrs user)) Hi)
    by apply String.eqb_refl.
  rewrite to_domain_user_of_model. cbn [allocated].
  intros [= <- <-]. exists rows. repeat split; assumption.
Qed.


(** A lookup that finds nothing constructs nothing. *)
Lemma find_by_email_none_inv (email : string) (w w1 : World) :
  find_by_email email w = (Return None, w1) -> w1 = w.
Proof.
  destruct w as [[t p i] n].
  unfold find_by_email, bind, session_query_first, get_session, put_session,
    ret, raise, bind.
  cbn [session table pending inactive allocated].
  destruct i; [discriminate |].
  destruct (flush t p) as [rows |]; [| discriminate].
  destruct (find _ rows) as [r |]; [| now intros [= <-]].
  destruct (_to_domain_user r _) as [[a | e] w2]; discriminate.
Qed.

(** ** [register] on such a session *)

Lemma register_duplicate (hasher : string -> string) (uuid4 : UUID)
    (now : datetime) (email password : string) (w : World) :
  session_ok (session w) = true ->
  email_taken (session w) email = true ->
  register (service hasher) uuid4 now email password w
  = (Raise (ValueError (already_registered email)), bump 1 w).
Proof.
  intros Hok Ht.
  destruct (find_by_email_hit _ _ Hok Ht) as (found & Hf & _).
  unfold register, service, bind; simpl. now rewrite Hf.
Qed.

Lemma register_fresh (hasher : string -> string) (uuid4 : UUID)
    (now : datetime) (email password : string) (w : World) :
  session_ok (session w) = true ->
  email_taken (session w) email = false ->
  id_taken (session w) uuid4 = false ->
  let user := User_default uuid4 now email (hasher password) in
  register (service hasher) uuid4 now email password w
  = (Return {| addr := allocated w; attrs := user |},
     {| session := stored (to_user_model user) (session w);
        allocated := 2 + allocated w |}).
Proof.
  intros Hok He Hi user.
  unfold register, service, bind; simpl.
  rewrite find_by_email_miss by assumption.
  unfold User_new. fold user.
  rewrite save_fresh; simpl; try assumption.
  - reflexivity.
  - rewrite (violates_spec (session w) user). simpl.
    now rewrite He, Hi.
Qed.

Lemma register_collision (hasher : string -> string) (uuid4 : UUID)
    (now : datetime) (email password : string) (w : World) :
  session_ok (session w) = true ->
  email_taken (session w) email = false ->
  id_taken (session w) uuid4 = true ->
  register (service hasher) uuid4 now email password w
  = (Raise IntegrityError, bump 1 w).
Proof.
  intros Hok He Hi.
  unfold register, service, bind; simpl.
  rewrite find_by_email_miss by assumption.
  unfold User_new.
  rewrite save_rejected; simpl; try assumption.
  - reflexivity.
  - rewrite (violates_spec (session w)
               (User_default uuid4 now email (hasher password))).
    simpl. now rewrite Hi.
Qed.

(** The message of the duplicate error determines the email. *)
Lemma list_ascii_of_string_app (a b : string) :
  list_ascii_of_string (a ++ b)
  = (list_ascii_of_string a ++ list_ascii_of_string b)%list.
Proof. induction a as [| c a IH]; simpl; congruence. Qed.

Lemma append_inv_tail (a b t : string) : a ++ t = b ++ t -> a = b.
Proof.
  intros H. apply (f_equal list_ascii_of_string) in H.
  rewrite !list_ascii_of_string_app in H. apply app_inv_tail in H.
  apply (f_equal string_of_list_ascii) in H.
  now rewrite !string_of_list_ascii_of_string in H.
Qed.

Lemma already_registered_inj (a b : string) :
  already_registered a = already_registered b -> a = b.
Proof.
  unfold already_registered. simpl. intros H.
  injection H as H. now apply append_inv_tail in H.
Qed.

(** ** Registration *)

(** C1.  When a stored user already has the email, [register] raises the
    duplicate error, a [ValueError] whose message is built from that email
    and from which the email can be read back, and the session (table,
    pending objects, transaction state) is left as it was. *)
Theorem register_duplicate_email (hasher : string -> string) (uuid4 : UUID)
    (now : datetime) (email password : string) (w : World) :
  session_ok (session w) = true ->
  email_taken (session w) email = true ->
  exists w',
    register (service hasher) uuid4 now email password w
    = (Raise (ValueError (already_registered email)), w')
    /\ session w' = session w
    /\ (forall other, already_registered other = already_registered email ->
                      other = email).
Proof.
  intros Hok Ht. exists (bump 1 w). split; [| split].
  - now apply register_duplicate.
  - reflexivity.
  - intros other. apply already_registered_inj.
Qed.

Lemma register_duplicate_email_witness :
  session_ok (session Sample.test_world) = true
  /\ email_taken (session Sample.test_world) "test@example.com" = true
  /\ exists w',
       register (service Sample.tag_hasher) Sample.id_b 1700000001%Z
         "test@example.com" "anything" Sample.test_world
       = (Raise (ValueError (already_registered "test@example.com")), w')
       /\ session w' = session Sample.test_world
       /\ (forall other,
             already_registered other
             = already_registered "test@example.com" ->
             other = "test@example.com").
Proof.
  split; [reflexivity |]. split; [reflexivity |].
  apply (register_duplicate_email Sample.tag_hasher Sample.id_b 1700000001%Z
           "test@example.com" "anything" Sample.test_world);
    reflexivity.
Defined.

(** C2, as stated, fails: the hasher is whatever callable the service was
    built with.  With the hasher that returns its argument, registering a
    non-empty email and password on the empty store returns a user whose
    [hashed_password] is the plaintext password. *)
Lemma register_plain_hasher_counterexample :
  "alice@example.com" <> EmptyString /\ "s3cret" <> EmptyString
  /\ email_taken (session Sample.empty_world) "alice@example.com" = false
  /\ exists user w',
       register (service Sample.plain_hasher) Sample.id_a 1700000000%Z
         "alice@example.com" "s3cret" Sample.empty_world
       = (Return user, w')
       /\ User.hashed_password (attrs user) = "s3cret".
Proof.
  split; [discriminate |]. split; [discriminate |].
  split; [reflexivity |].
  eexists; eexists; split; [vm_compute; reflexivity | reflexivity].
Qed.

(** C2, amended.  When no stored user has the email and the generated
    identifier is not yet stored, [register] returns, for every email and
    password and every hasher, a user with the given email, whose
    [hashed_password] is the hasher applied to the password and whose
    identifier has a non-empty string form; the session gains exactly the
    row of that user and is otherwise as before.  The [hashed_password]
    differs from the plaintext whenever the hasher does not return this
    password unchanged. *)
Theorem register_success (hasher : string -> string) (uuid4 : UUID)
    (now : datetime) (email password : string) (w : World) :
  session_ok (session w) = true ->
  email_taken (session w) email = false ->
  id_taken (session w) uuid4 = false ->
  exists user w',
    register (service hasher) uuid4 now email password w = (Return user, w')
    /\ User.email (attrs user) = email
    /\ User.hashed_password (attrs user) = hasher password
    /\ (hasher password <> password ->
        User.hashed_password (attrs user) <> password)
    /\ UUID_str (User.id (attrs user)) <> EmptyString
    /\ session w' = stored (to_user_model (attrs user)) (session w)
    /\ table (session w')
       = (table (session w) ++ [to_user_model (attrs user)])%list.
Proof.
  intros Hok He Hi.
  eexists; eexists; split;
    [apply register_fresh; assumption | simpl].
  split; [reflexivity |]. split; [reflexivity |].
  split; [exact (fun H => H) |].
  split; [| split; reflexivity].
  intros H. pose proof (UUID_str_length uuid4) as L.
  rewrite H in L. discriminate L.
Qed.

Lemma register_success_witness :
  session_ok (session Sample.test_world) = true
  /\ email_taken (session Sample.test_world) "bob@example.com" = false
  /\ id_taken (session Sample.test_world) Sample.id_b = false
  /\ Sample.tag_hasher "hunter2" <> "hunter2"
  /\ exists user w',
       register (service Sample.tag_hasher) Sample.id_b 1700000001%Z
         "bob@example.com" "hunter2" Sample.test_world = (Return user, w')
       /\ User.email (attrs user) = "bob@example.com"
       /\ User.hashed_password (attrs user) = Sample.tag_hasher "hunter2"
       /\ User.hashed_password (attrs user) <> "hunter2"
       /\ UUID_str (User.id (attrs user)) <> EmptyString
       /\ session w'
          = stored (to_user_model (attrs user)) (session Sample.test_world)
       /\ table (session w')
          = (table (session Sample.test_world)
               ++ [to_user_model (attrs user)])%list.
Proof.
  assert (Hh : Sample.tag_hasher "hunter2" <> "hunter2") by discriminate.
  split; [reflexivity |]. split; [reflexivity |]. split; [reflexivity |].
  split; [exact Hh |].
  destruct (register_success Sample.tag_hasher Sample.id_b 1700000001%Z
              "bob@example.com" "hunter2" Sample.test_world
              eq_refl eq_refl eq_refl)
    as (user & w' & H1 & H2 & H3 & H4 & H5 & H6 & H7).
  exists user, w'. repeat split; try assumption. exact (H4 Hh).
Defined.

(** C3, as stated, fails: [register] discards what [save] returns.  On the
    empty store the object [register] returns is the one built before
    [save] was called, at address 0; the object [save] returned in that
    call is another one, at address 1. *)
Lemma register_result_counterexample :
  exists user saved w1 w',
    User_new (User_default Sample.id_a 1700000000%Z "alice@example.com"
                (Sample.tag_hasher "s3cret")) Sample.empty_world
    = (Return user, w1)
    /\ save user w1 = (Return saved, w')
    /\ register (service Sample.tag_hasher) Sample.id_a 1700000000%Z
         "alice@example.com" "s3cret" Sample.empty_world
       = (Return user, w')
    /\ user <> saved.
Proof.
  do 4 eexists. split; [reflexivity |].
  split; [vm_compute; reflexivity |].
  split; [vm_compute; reflexivity | discriminate].
Qed.

(** C3, amended.  On success [register] returns the object it constructed
    before persisting it: the value of [save] is dropped.  The object [save]
    returned in that call is a different object; the table keeping the
    columns as written, its attributes are those of the returned one. *)
Theorem register_returns_constructed (hasher : string -> string)
    (uuid4 : UUID) (now : datetime) (email password : string)
    (w : World) (user : object) (w' : World) :
  register (service hasher) uuid4 now email password w = (Return user, w') ->
  User_new (User_default uuid4 now email (hasher password)) w
  = (Return user, bump 1 w)
  /\ exists saved,
       save user (bump 1 w) = (Return saved, w')
       /\ attrs saved = attrs user
       /\ addr saved <> addr user.
Proof.
  unfold register, service, bind.
  cbn [_repository _hasher repo_find_by_email repo_save
         SqlAlchemyUserRepository].
  destruct (find_by_email email w) as [[[found |] | e] w1] eqn:Hf;
    try discriminate.
  apply find_by_email_none_inv in Hf. subst w1.
  unfold User_new.
  destruct (save _ _) as [[saved | e] w2] eqn:Hs; [| discriminate].
  unfold ret. intros [= <- <-]. split; [reflexivity |].
  exists saved. split; [exact Hs |].
  destruct (save_return_inv _ _ _ _ Hs) as (rows & _ & _ & _ & -> & _).
  cbn [attrs addr allocated]. split; [reflexivity | lia].
Qed.

Lemma register_returns_constructed_witness :
  exists user w',
    register (service Sample.tag_hasher) Sample.id_b 1700000001%Z
      "bob@example.com" "hunter2" Sample.test_world = (Return user, w')
    /\ User_new (User_default Sample.id_b 1700000001%Z "bob@example.com"
                   (Sample.tag_hasher "hunter2")) Sample.test_world
       = (Return user, bump 1 Sample.test_world)
    /\ exists saved,
         save user (bump 1 Sample.test_world) = (Return saved, w')
         /\ attrs saved = attrs user
         /\ addr saved <> addr user.
Proof.
  assert (E : register (service Sample.tag_hasher) Sample.id_b 1700000001%Z
                "bob@example.com" "hunter2" Sample.test_world
              = (Return {| addr := 2;
                           attrs := User_default Sample.id_b 1700000001%Z
                                      "bob@example.com"
                                      (Sample.tag_hasher "hunter2") |},
                 {| session :=
                      stored (to_user_model
                                (User_default Sample.id_b 1700000001%Z
                                   "bob@example.com"
                                   (Sample.tag_hasher "hunter2")))
                        (session Sample.test_world);
                    allocated := 4 |}))
    by (vm_compute; reflexivity).
  eexists; eexists. split; [exact E |].
  exact (register_returns_constructed Sample.tag_hasher Sample.id_b
           1700000001%Z "bob@example.com" "hunter2" Sample.test_world
           _ _ E).
Defined.

(** ** Uniqueness of emails *)

Lemma email_taken_notin (s : Session) (email : string) :
  email_taken s email = false ->
  ~ In email (map UserModel.email (table s)).
Proof.
  unfold email_taken. induction (table s) as [| r t IH]; simpl; [tauto |].
  destruct (UserModel.email r =? email) eqn:E; [discriminate |].
  apply String.eqb_neq in E. intros H [H1 | H1]; [easy | now apply IH].
Qed.

Lemma filter_email_nil (t : list UserModel.t) (email : string) :
  ~ In email (map UserModel.email t) ->
  filter (fun r => UserModel.email r =? email) t = [].
Proof.
  induction t as [| r t IH]; simpl; [reflexivity |].
  intros H. destruct (UserModel.email r =? email) eqn:E.
  - apply String.eqb_eq in E. tauto.
  - apply IH. tauto.
Qed.

Lemma NoDup_count_email (s : Session) (email : string) :
  NoDup (map UserModel.email (table s)) -> count_email s email <= 1.
Proof.
  unfold count_email. induction (table s) as [| r t IH]; simpl; [lia |].
  intros H. apply NoDup_cons_iff in H as [Hr Ht].
  destruct (UserModel.email r =? email) eqn:E.
  - apply String.eqb_eq in E. subst email.
    rewrite filter_email_nil by assumption. simpl. lia.
  - now apply IH.
Qed.

Lemma forallb_snoc {A} (f : A -> bool) (l : list A) (a : A) :
  forallb f (l ++ [a]) = forallb f l && f a.
Proof.
  rewrite forallb_app. simpl. now rewrite andb_true_r.
Qed.

Lemma session_ok_clean (t : list UserModel.t) :
  session_ok {| table := t; pending := []; inactive := false |}
  = forallb row_ok t.
Proof. reflexivity. Qed.

Lemma row_ok_to_user_model (u : User.t) : row_ok (to_user_model u) = true.
Proof.
  unfold row_ok. cbn [to_user_model UserModel.id].
  now rewrite UUID_parse_str.
Qed.

Lemma stored_ok (s : Session) (u : User.t) :
  session_ok s = true -> session_ok (stored (to_user_model u) s) = true.
Proof.
  intros H. destruct (session_ok_inv _ H) as (_ & _ & Hrows).
  unfold stored.
  rewrite session_ok_clean, forallb_snoc, Hrows, row_ok_to_user_model.
  reflexivity.
Qed.

(** What [register] leaves behind, in each of its three outcomes. *)
Lemma register_session (hasher : string -> string) (uuid4 : UUID)
    (now : datetime) (email password : string) (w : World) :
  session_ok (session w) = true ->
  session (snd (register (service hasher) uuid4 now email password w))
  = if email_taken (session w) email || id_taken (session w) uuid4
    then session w
    else stored (to_user_model
                   (User_default uuid4 now email (hasher password)))
           (session w).
Proof.
  intros Hok.
  destruct (email_taken (session w) email) eqn:He.
  { now rewrite register_duplicate. }
  destruct (id_taken (session w) uuid4) eqn:Hi.
  { now rewrite register_collision. }
  now rewrite register_fresh.
Qed.

Lemma reachable_inv (w : World) :
  reachable w ->
  session_ok (session w) = true
  /\ NoDup (map UserModel.email (table (session w))).
Proof.
  induction 1 as [n | w hasher uuid4 now email password _ [Hok Hnd]].
  - split; [reflexivity | constructor].
  - rewrite register_session by assumption.
    destruct (email_taken (session w) email) eqn:He; simpl; [now split |].
    destruct (id_taken (session w) uuid4); [now split |].
    split; [now apply stored_ok |].
    simpl. rewrite map_app. apply NoDup_app; [assumption | |].
    + simpl. constructor; [tauto | constructor].
    + intros a Ha [<- | []]. revert Ha. now apply email_taken_notin.
Qed.

(** C4.  In every world reached from the empty store by [register] calls,
    each email value is held by at most one stored row. *)
Theorem unique_email_invariant (w : World) (email : string) :
  reachable w -> count_email (session w) email <= 1.
Proof.
  intros H. apply NoDup_count_email. now apply reachable_inv.
Qed.

Lemma unique_email_invariant_witness :
  let w1 := snd (register (service Sample.tag_hasher) Sample.id_a
                   1700000000%Z "test@example.com" "pw" Sample.empty_world) in
  let w2 := snd (register (service Sample.plain_hasher) Sample.id_b
                   1700000001%Z "test@example.com" "other" w1) in
  reachable w2
  /\ count_email (session w2) "test@example.com" = 1
  /\ count_email (session w2) "test@example.com" <= 1.
Proof.
  intros w1 w2.
  assert (R : reachable w2)
    by (apply reach_register, reach_register; exact (reach_empty 0)).
  split; [exact R |]. split; [reflexivity |].
  exact (unique_email_invariant w2 "test@example.com" R).
Defined.

(** ** Round trips through the repository *)

Lemma save_returned (user saved : object) (w w' : World) :
  session_ok (session w) = true ->
  save user w = (Return saved, w') ->
  violates (table (session w)) (to_user_model (attrs user)) = false
  /\ saved = {| addr := allocated w; attrs := attrs user |}
  /\ w' = {| session := stored (to_user_model (attrs user)) (session w);
             allocated := S (allocated w) |}.
Proof.
  intros Hok H.
  destruct (violates (table (session w)) (to_user_model (attrs user))) eqn:Hv.
  - rewrite save_rejected in H by assumption. discriminate H.
  - rewrite save_fresh in H by assumption. injection H as <- <-. auto.
Qed.





(** ** Lookups that miss *)

Lemma bump_session (n : nat) (w : World) : session (bump n w) = session w.
Proof. reflexivity. Qed.

(** The table after a sequence of [save] calls holds the rows of the users
    whose [save] returned, and nothing else. *)
Lemma saves_inv (us : list User.t) (w : World) :
  saves us w ->
  session_ok (session w) = true
  /\ table (session w) = map to_user_model us.
Proof.
  induction 1 as [n | us w user saved w' _ [Hok Ht] Hs
                 | us w user e w' _ [Hok Ht] Hs | us w n _ IH].
  - split; reflexivity.
  - destruct (save_returned _ _ _ _ Hok Hs) as (_ & _ & ->).
    cbn [session]. split; [now apply stored_ok |].
    unfold stored. cbn [table]. now rewrite Ht, map_app.
  - destruct (violates (table (session w)) (to_user_model (attrs user)))
      eqn:Hv.
    + rewrite save_rejected in Hs by assumption.
      injection Hs as _ <-. now split.
    + rewrite save_fresh in Hs by assumption. discriminate Hs.
  - rewrite bump_session. exact IH.
Qed.

Lemma id_not_taken (us : list User.t) (s : Session) (id : UUID) :
  table s = map to_user_model us ->
  ~ In id (map User.id us) -> id_taken s id = false.
Proof.
  unfold id_taken. intros ->.
  induction us as [| u us IH]; [reflexivity |].
  cbn [map existsb In]. intros H.
  rewrite IH by tauto. rewrite orb_false_r.
  apply String.eqb_neq. cbn [to_user_model UserModel.id].
  intros E. apply UUID_str_inj in E. tauto.
Qed.

Lemma email_not_taken (us : list User.t) (s : Session) (email : string) :
  table s = map to_user_model us ->
  ~ In email (map User.email us) -> email_taken s email = false.
Proof.
  unfold email_taken. intros ->.
  induction us as [| u us IH]; [reflexivity |].
  cbn [map existsb In]. intros H.
  rewrite IH by tauto. rewrite orb_false_r.
  apply String.eqb_neq. cbn [to_user_model UserModel.email]. tauto.
Qed.

(** C7.  After any sequence of [save] calls, a lookup by an identifier no
    saved user has, or by an email no saved user has, returns [None]: it
    does not raise, and leaves the world as it was. *)
Theorem lookups_miss (us : list User.t) (w : World) (id : UUID)
    (email : string) :
  saves us w ->
  (~ In id (map User.id us) -> find_by_id id w = (Return None, w))
  /\ (~ In email (map User.email us) ->
      find_by_email email w = (Return None, w)).
Proof.
  intros H. destruct (saves_inv _ _ H) as [Hok Ht]. split; intros Hn.
  - apply find_by_id_miss; [assumption |]. now apply (id_not_taken us).
  - apply find_by_email_miss; [assumption |].
    now apply (email_not_taken us).
Qed.

Lemma lookups_miss_witness :
  saves [Sample.test_user] Sample.test_world
  /\ ~ In Sample.id_b (map User.id [Sample.test_user])
  /\ ~ In "nonexistent@example.com" (map User.email [Sample.test_user])
  /\ find_by_id Sample.id_b Sample.test_world
     = (Return None, Sample.test_world)
  /\ find_by_email "nonexistent@example.com" Sample.test_world
     = (Return None, Sample.test_world).
Proof.
  assert (S : saves [Sample.test_user] Sample.test_world).
  { apply (saves_returned [] (bump 1 Sample.empty_world) Sample.test_object
             {| addr := 1; attrs := Sample.test_user |}).
    - exact (saves_empty 1).
    - vm_compute; reflexivity. }
  assert (Hi : ~ In Sample.id_b (map User.id [Sample.test_user])).
  { intros [H | []]. discriminate H. }
  assert (He : ~ In "nonexistent@example.com"
                  (map User.email [Sample.test_user])).
  { intros [H | []]. discriminate H. }
  split; [exact S |]. split; [exact Hi |]. split; [exact He |].
  destruct (lookups_miss [Sample.test_user] Sample.test_world Sample.id_b
              "nonexistent@example.com" S) as [H1 H2].
  split; [exact (H1 Hi) | exact (H2 He)].
Defined.

(** ** Integrity violations *)

(** [register] passes on whatever [save] raises. *)
Lemma register_propagates (self : RegistrationService) (uuid4 : UUID)
    (now : datetime) (email password : string) (w w1 w2 : World) (e : exn) :
  repo_find_by_email (_repository self) email w = (Return None, w1) ->
  repo_save (_repository self)
    {| addr := allocated w1;
       attrs := User_default uuid4 now email (_hasher self password) |}
    (bump 1 w1) = (Raise e, w2) ->
  register self uuid4 now email password w = (Raise e, w2).
Proof.
  intros Hf Hs. unfold register, bind. rewrite Hf.
  unfold User_new. unfold bump in Hs. cbn [Nat.add] in Hs.
  now rewrite Hs.
Qed.

(** C8.  On a session between two calls: when the insert breaks the
    primary key or the unique constraint, [save] raises [IntegrityError]
    and leaves the world exactly as it found it (the row it added is
    neither stored nor pending, and the transaction is usable again); and
    [register] raises to its caller the very exception [save] raised, with
    the world [save] left, in particular the [IntegrityError] of an
    identifier that is already stored. *)
Theorem integrity_error_rolls_back (hasher : string -> string)
    (user : object) (uuid4 : UUID) (now : datetime) (email password : string)
    (w : World) :
  session_ok (session w) = true ->
  (violates (table (session w)) (to_user_model (attrs user)) = true ->
   save user w = (Raise IntegrityError, w))
  /\ (email_taken (session w) email = false ->
      forall (e : exn) (w' : World),
        save {| addr := allocated w;
                attrs := User_default uuid4 now email (hasher password) |}
          (bump 1 w) = (Raise e, w') ->
        register (service hasher) uuid4 now email password w = (Raise e, w'))
  /\ (email_taken (session w) email = false ->
      id_taken (session w) uuid4 = true ->
      register (service hasher) uuid4 now email password w
      = (Raise IntegrityError, bump 1 w)
      /\ session (bump 1 w) = session w).
Proof.
  intros Hok. split; [| split].
  - now apply save_rejected.
  - intros He e w' Hs.
    apply (register_propagates (service hasher) uuid4 now email password
             w w w' e); [| exact Hs].
    now apply find_by_email_miss.
  - intros He Hi. split; [now apply register_collision | reflexivity].
Qed.

Lemma integrity_error_rolls_back_witness :
  session_ok (session Sample.test_world) = true
  /\ violates (table (session Sample.test_world))
       (to_user_model
          (User_default Sample.id_b 1700000002%Z "test@example.com" "h"))
     = true
  /\ email_taken (session Sample.test_world) "carol@example.com" = false
  /\ id_taken (session Sample.test_world) Sample.id_a = true
  /\ save {| addr := 7;
             attrs := User_default Sample.id_b 1700000002%Z
                        "test@example.com" "h" |} Sample.test_world
     = (Raise IntegrityError, Sample.test_world)
  /\ register (service Sample.tag_hasher) Sample.id_a 1700000003%Z
       "carol@example.com" "pw" Sample.test_world
     = (Raise IntegrityError, bump 1 Sample.test_world).
Proof.
  destruct (integrity_error_rolls_back Sample.tag_hasher
              {| addr := 7;
                 attrs := User_default Sample.id_b 1700000002%Z
                            "test@example.com" "h" |}
              Sample.id_a 1700000003%Z "carol@example.com" "pw"
              Sample.test_world eq_refl) as (H1 & _ & H3).
  split; [reflexivity |]. split; [reflexivity |].
  split; [reflexivity |]. split; [reflexivity |].
  split; [exact (H1 eq_refl) | exact (proj1 (H3 eq_refl eq_refl))].
Defined.

(** ** The identifier through [save] *)

(** C9.  Whenever [save] returns, on any session, the user it returns has
    the identifier of the user it was given; the row it stored holds that
    identifier in its string form [str(user.id)], of 36 characters, which
    [UUID(...)] reads back as the same identifier.  In [register] the
    identifier of the returned user is the one generated when the user was
    constructed, before the repository's [save] ran. *)
Theorem save_keeps_id (user saved : object) (w w' : World) :
  save user w = (Return saved, w') ->
  User.id (attrs saved) = User.id (attrs user)
  /\ In (to_user_model (attrs user)) (table (session w'))
  /\ UserModel.id (to_user_model (attrs user))
     = UUID_str (User.id (attrs user))
  /\ String.length (UUID_str (User.id (attrs user))) = 36
  /\ UUID_parse (UUID_str (User.id (attrs user)))
     = Some (User.id (attrs user))
  /\ (forall (self : RegistrationService) (uuid4 : UUID) (now : datetime)
             (email password : string) (v v' : World) (registered : object),
         register self uuid4 now email password v = (Return registered, v') ->
         User.id (attrs registered) = uuid4).
Proof.
  intros H.
  destruct (save_return_inv _ _ _ _ H) as (rows & _ & _ & _ & -> & ->).
  split; [reflexivity |].
  split; [cbn [session table]; apply in_or_app; right; now left |].
  split; [reflexivity |].
  split; [apply UUID_str_length |].
  split; [apply UUID_parse_str |].
  intros self uuid4 now email password v v' registered.
  unfold register, bind.
  destruct (repo_find_by_email (_repository self) email v)
    as [[[found |] | e] v1]; try discriminate.
  unfold User_new.
  destruct (repo_save (_repository self) _ _) as [[s | e] v2];
    [| discriminate].
  unfold ret. intros [= <- _]. reflexivity.
Qed.

Lemma save_keeps_id_witness :
  save Sample.test_object (bump 1 Sample.empty_world)
  = (Return {| addr := 1; attrs := Sample.test_user |}, Sample.test_world)
  /\ User.id (attrs {| addr := 1; attrs := Sample.test_user |})
     = User.id (attrs Sample.test_object)
  /\ In (to_user_model Sample.test_user) (table (session Sample.test_world))
  /\ UUID_str Sample.id_a = "123e4567-e89b-42d3-a456-426614174000".
Proof.
  assert (E : save Sample.test_object (bump 1 Sample.empty_world)
              = (Return {| addr := 1; attrs := Sample.test_user |},
                 Sample.test_world))
    by (vm_compute; reflexivity).
  destruct (save_keeps_id Sample.test_object
              {| addr := 1; attrs := Sample.test_user |}
              (bump 1 Sample.empty_world) Sample.test_world E)
    as (H1 & H2 & _).
  split; [exact E |]. split; [exact H1 |]. split; [exact H2 |].
  vm_compute; reflexivity.
Defined.

(** ** Empty inputs *)

(** C10.  [register] has no check on its inputs.  With an empty email that
    no stored user has, it returns a user with the empty email and stores
    its row; with an empty password, it returns and stores a user whose
    [hashed_password] is the hasher applied to the empty string. *)
Theorem register_accepts_empty (hasher : string -> string) (uuid4 : UUID)
    (now : datetime) (other : string) (w : World) :
  session_ok (session w) = true ->
  id_taken (session w) uuid4 = false ->
  (email_taken (session w) EmptyString = false ->
   exists user w',
     register (service hasher) uuid4 now EmptyString other w = (Return user, w')
     /\ User.email (attrs user) = EmptyString
     /\ UserModel.email (to_user_model (attrs user)) = EmptyString
     /\ table (session w')
        = (table (session w) ++ [to_user_model (attrs user)])%list)
  /\ (email_taken (session w) other = false ->
      exists user w',
        register (service hasher) uuid4 now other EmptyString w = (Return user, w')
        /\ User.hashed_password (attrs user) = hasher EmptyString
        /\ UserModel.hashed_password (to_user_model (attrs user)) = hasher EmptyString
        /\ table (session w')
           = (table (session w) ++ [to_user_model (attrs user)])%list).
Proof.
  intros Hok Hi. split; intros He.
  - eexists; eexists. split; [now apply register_fresh |].
    repeat split.
  - eexists; eexists. split; [now apply register_fresh |].
    repeat split.
Qed.

Lemma register_accepts_empty_witness :
  session_ok (session Sample.test_world) = true
  /\ id_taken (session Sample.test_world) Sample.id_b = false
  /\ email_taken (session Sample.test_world) EmptyString = false
  /\ email_taken (session Sample.test_world) "bob@example.com" = false
  /\ (exists user w',
        register (service Sample.tag_hasher) Sample.id_b 1700000004%Z
          EmptyString "bob@example.com" Sample.test_world = (Return user, w')
        /\ User.email (attrs user) = EmptyString
        /\ UserModel.email (to_user_model (attrs user)) = EmptyString
        /\ table (session w')
           = (table (session Sample.test_world)
                ++ [to_user_model (attrs user)])%list)
  /\ (exists user w',
        register (service Sample.tag_hasher) Sample.id_b 1700000004%Z
          "bob@example.com" EmptyString Sample.test_world = (Return user, w')
        /\ User.hashed_password (attrs user) = Sample.tag_hasher EmptyString
        /\ UserModel.hashed_password (to_user_model (attrs user))
           = Sample.tag_hasher EmptyString
        /\ table (session w')
           = (table (session Sample.test_world)
                ++ [to_user_model (attrs user)])%list).
Proof.
  destruct (register_accepts_empty Sample.tag_hasher Sample.id_b
              1700000004%Z "bob@example.com" Sample.test_world
              eq_refl eq_refl) as [H1 H2].
  split; [reflexivity |]. split; [reflexivity |].
  split; [reflexivity |]. split; [reflexivity |].
  split; [exact (H1 eq_refl) | exact (H2 eq_refl)].
Defined.

(** ** The scenario of the repository's tests *)

(** Saving the test user gives back its identifier and email; looking that
    identifier up gives the same attributes; registering the same email
    again raises the duplicate error. *)
Example save_find_register_scenario :
  exists saved found w1 w2 w3,
    save Sample.test_object (bump 1 Sample.empty_world) = (Return saved, w1)
    /\ User.id (attrs saved) = Sample.id_a
    /\ User.email (attrs saved) = "test@example.com"
    /\ find_by_id (User.id (attrs saved)) w1 = (Return (Some found), w2)
    /\ attrs found = attrs saved
    /\ register (service Sample.tag_hasher) Sample.id_b 1700000005%Z
         "test@example.com" "anything" w2
       = (Raise (ValueError "Email test@example.com is already registered"),
          w3)
    /\ session w3 = session w1.
Proof.
  do 5 eexists.
  split; [vm_compute; reflexivity |].
  split; [reflexivity |]. split; [reflexivity |].
  split; [vm_compute; reflexivity |]. split; [reflexivity |].
  split; [vm_compute; reflexivity | reflexivity].
Qed.

(* ================================================================== *)
(** * Further properties of the repository                             *)
(* ================================================================== *)

(** ** Case analyses *)

Lemma find_by_id_lookup (id : UUID) :
  find_by_id id = lookup (fun r => UserModel.id r =? UUID_str id).
Proof. reflexivity. Qed.

Lemma find_by_email_lookup (email : string) :
  find_by_email email = lookup (fun r => UserModel.email r =? email).
Proof. reflexivity. Qed.

Lemma query_first_cases (cond : UserModel.t -> bool) (w : World) :
  session_query_first cond w
  = if inactive (session w) then (Raise PendingRollbackError, w)
    else match flush (table (session w)) (pending (session w)) with
         | Some rows => (Return (find cond rows), w)
         | None =>
             (Raise IntegrityError,
              {| session := {| table := table (session w);
                               pending := [];
                               inactive := true |};
                 allocated := allocated w |})
         end.
Proof.
  destruct w as [[t p i] n].
  unfold session_query_first, bind, get_session, put_session, raise, ret.
  cbn [session table pending inactive allocated].
  destruct i; [reflexivity |]. now destruct (flush t p).
Qed.

Lemma to_domain_user_cases (r : UserModel.t) (w : World) :
  _to_domain_user r w
  = match UUID_parse (UserModel.id r) with
    | Some i => (Return {| addr := allocated w; attrs := row_attrs i r |},
                 bump 1 w)
    | None => (Raise (ValueError badly_formed), w)
    end.
Proof.
  unfold _to_domain_user. now destruct (UUID_parse (UserModel.id r)).
Qed.

Lemma lookup_cases (cond : UserModel.t -> bool) (w : World) :
  lookup cond w
  = if inactive (session w) then (Raise PendingRollbackError, w)
    else match flush (table (session w)) (pending (session w)) with
         | None =>
             (Raise IntegrityError,
              {| session := {| table := table (session w);
                               pending := [];
                               inactive := true |};
                 allocated := allocated w |})
         | Some rows =>
             match find cond rows with
             | None => (Return None, w)
             | Some r =>
                 match UUID_parse (UserModel.id r) with
                 | Some i =>
                     (Return (Some {| addr := allocated w;
                                      attrs := row_attrs i r |}),
                      bump 1 w)
                 | None => (Raise (ValueError badly_formed), w)
                 end
             end
         end.
Proof.
  unfold lookup, bind. rewrite query_first_cases.
  destruct (inactive (session w)); [reflexivity |].
  destruct (flush (table (session w)) (pending (session w))) as [rows |];
    [| reflexivity].
  destruct (find cond rows) as [r |]; [| reflexivity].
  rewrite to_domain_user_cases.
  now destruct (UUID_parse (UserModel.id r)).
Qed.

Lemma find_app_false {A} (f : A -> bool) (l : list A) (a : A) :
  f a = false -> find f (l ++ [a]) = find f l.
Proof.
  intros H. induction l as [| b l IH]; simpl.
  - now rewrite H.
  - now destruct (f b).
Qed.

Lemma save_rejected_clean (user : object) (rows : list UserModel.t)
    (n : nat) :
  violates rows (to_user_model (attrs user)) = true ->
  let w := {| session := {| table := rows; pending := [];
                            inactive := false |};
              allocated := n |} in
  save user w = (Raise IntegrityError, w).
Proof.
  intros Hv w. subst w.
  unfold save, try_except, bind, session_add, session_commit,
    session_rollback, get_session, put_session, raise, bind.
  cbn [session table pending inactive allocated app flush].
  rewrite Hv. reflexivity.
Qed.

(** ** What [save] returns and leaves *)

(** X1.  The table keeping the columns as they were written (a naive
    [created_at] among them), whenever [save] returns, on any session, the
    user it returns has the five attributes of the user it was given and is
    a newly constructed object; the session is left with nothing pending
    and a usable transaction. *)
Theorem save_returns_attributes (user saved : object) (w w' : World) :
  save user w = (Return saved, w') ->
  attrs saved = attrs user
  /\ addr saved = allocated w
  /\ allocated w' = S (allocated w)
  /\ pending (session w') = []
  /\ inactive (session w') = false.
Proof.
  intros H.
  destruct (save_return_inv _ _ _ _ H) as (rows & _ & _ & _ & -> & ->).
  repeat split.
Qed.

Lemma save_returns_attributes_witness :
  save Sample.test_object (bump 1 Sample.empty_world)
  = (Return {| addr := 1; attrs := Sample.test_user |}, Sample.test_world)
  /\ attrs {| addr := 1; attrs := Sample.test_user |}
     = attrs Sample.test_object
  /\ pending (session Sample.test_world) = [].
Proof.
  assert (E : save Sample.test_object (bump 1 Sample.empty_world)
              = (Return {| addr := 1; attrs := Sample.test_user |},
                 Sample.test_world))
    by (vm_compute; reflexivity).
  destruct (save_returns_attributes Sample.test_object
              {| addr := 1; attrs := Sample.test_user |}
              (bump 1 Sample.empty_world) Sample.test_world E)
    as (H1 & _ & _ & H4 & _).
  split; [exact E |]. split; [exact H1 | exact H4].
Defined.

(** X2.  The row [save] builds from a user is read back by
    [_to_domain_user] as a user with the same attributes, and no two
    different users are given the same row. *)
Theorem user_model_round_trip (u : User.t) (w : World) :
  _to_domain_user (to_user_model u) w
  = (Return {| addr := allocated w; attrs := u |}, bump 1 w)
  /\ (forall v : User.t, to_user_model u = to_user_model v -> u = v).
Proof.
  split; [apply to_domain_user_of_model |].
  intros v E.
  pose proof (to_domain_user_of_model u w) as Hu.
  rewrite E, to_domain_user_of_model in Hu. congruence.
Qed.

(** X3.  When [_to_domain_user] accepts a row, writing the user it built
    back as a row keeps the email, the hashed password, the timestamp and
    the flag, and gives an [id] column that reads as the same identifier:
    only the spelling of the identifier can change. *)
Theorem row_round_trip (r : UserModel.t) (found : object) (w w' : World) :
  _to_domain_user r w = (Return found, w') ->
  let r' := to_user_model (attrs found) in
  UserModel.email r' = UserModel.email r
  /\ UserModel.hashed_password r' = UserModel.hashed_password r
  /\ UserModel.created_at r' = UserModel.created_at r
  /\ UserModel.is_active r' = UserModel.is_active r
  /\ UUID_parse (UserModel.id r') = UUID_parse (UserModel.id r)
  /\ UserModel.id r' = UUID_str (User.id (attrs found)).
Proof.
  rewrite to_domain_user_cases.
  destruct (UUID_parse (UserModel.id r)) as [i |] eqn:Hi; [| discriminate].
  intros [= <- _]. cbn [attrs row_attrs to_user_model UserModel.email
    UserModel.hashed_password UserModel.created_at UserModel.is_active
    UserModel.id User.id User.email User.hashed_password User.created_at
    User.is_active].
  repeat split. apply UUID_parse_str.
Qed.

Lemma row_round_trip_witness :
  let r := {| UserModel.id := "{123E4567-E89B-42D3-A456-426614174000}";
              UserModel.email := "test@example.com";
              UserModel.hashed_password := "h";
              UserModel.created_at := 7%Z;
              UserModel.is_active := false |} in
  exists found w',
    _to_domain_user r Sample.empty_world = (Return found, w')
    /\ UserModel.email (to_user_model (attrs found)) = "test@example.com"
    /\ UserModel.id (to_user_model (attrs found))
       = "123e4567-e89b-42d3-a456-426614174000".
Proof.
  intros r.
  assert (E : _to_domain_user r Sample.empty_world
              = (Return {| addr := 0; attrs := row_attrs Sample.id_a r |},
                 bump 1 Sample.empty_world))
    by (vm_compute; reflexivity).
  destruct (row_round_trip r _ Sample.empty_world _ E)
    as (H1 & _ & _ & _ & _ & _).
  eexists; eexists. split; [exact E |]. split; [exact H1 |].
  vm_compute; reflexivity.
Defined.

(** ** Lookups *)

(** X4.  On any session, a user returned by [find_by_email] has the email
    that was asked for, and is a newly constructed object. *)
Theorem find_by_email_sound (email : string) (found : object)
    (w w' : World) :
  find_by_email email w = (Return (Some found), w') ->
  User.email (attrs found) = email
  /\ addr found = allocated w
  /\ w' = bump 1 w.
Proof.
  rewrite find_by_email_lookup, lookup_cases.
  destruct (inactive (session w)); [discriminate |].
  destruct (flush (table (session w)) (pending (session w))) as [rows |];
    [| discriminate].
  destruct (find _ rows) as [r |] eqn:Hf; [| discriminate].
  destruct (UUID_parse (UserModel.id r)) as [i |]; [| discriminate].
  intros [= <- <-]. destruct (find_some _ _ Hf) as [_ He].
  apply String.eqb_eq in He. repeat split. exact He.
Qed.

Lemma find_by_email_sound_witness :
  exists found w',
    find_by_email "test@example.com" Sample.test_world
    = (Return (Some found), w')
    /\ User.email (attrs found) = "test@example.com"
    /\ addr found = 2.
Proof.
  assert (E : find_by_email "test@example.com" Sample.test_world
              = (Return (Some {| addr := 2; attrs := Sample.test_user |}),
                 bump 1 Sample.test_world))
    by (vm_compute; reflexivity).
  destruct (find_by_email_sound "test@example.com" _ Sample.test_world _ E)
    as (H1 & H2 & _).
  eexists; eexists. split; [exact E |]. split; [exact H1 | exact H2].
Defined.

(** X5.  On any session, a user returned by [find_by_id] has the
    identifier that was asked for. *)
Theorem find_by_id_sound (id : UUID) (found : object) (w w' : World) :
  find_by_id id w = (Return (Some found), w') ->
  User.id (attrs found) = id
  /\ addr found = allocated w
  /\ w' = bump 1 w.
Proof.
  rewrite find_by_id_lookup, lookup_cases.
  destruct (inactive (session w)); [discriminate |].
  destruct (flush (table (session w)) (pending (session w))) as [rows |];
    [| discriminate].
  destruct (find _ rows) as [r |] eqn:Hf; [| discriminate].
  destruct (find_some _ _ Hf) as [_ He]. apply String.eqb_eq in He.
  rewrite He, UUID_parse_str.
  intros [= <- <-]. repeat split.
Qed.

Lemma find_by_id_sound_witness :
  exists found w',
    find_by_id Sample.id_a Sample.test_world = (Return (Some found), w')
    /\ User.id (attrs found) = Sample.id_a.
Proof.
  assert (E : find_by_id Sample.id_a Sample.test_world
              = (Return (Some {| addr := 2; attrs := Sample.test_user |}),
                 bump 1 Sample.test_world))
    by (vm_compute; reflexivity).
  destruct (find_by_id_sound Sample.id_a _ Sample.test_world _ E)
    as (H1 & _).
  eexists; eexists. split; [exact E | exact H1].
Defined.

Lemma lookup_reads_only (cond : UserModel.t -> bool) (w : World) :
  table (session (snd (lookup cond w))) = table (session w)
  /\ (fst (lookup cond w) <> Raise IntegrityError ->
      session (snd (lookup cond w)) = session w).
Proof.
  rewrite lookup_cases.
  destruct (inactive (session w)); [now split |].
  destruct (flush (table (session w)) (pending (session w))) as [rows |];
    [| split; [reflexivity | intros H; now destruct H]].
  destruct (find cond rows) as [r |]; [| now split].
  now destruct (UUID_parse (UserModel.id r)).
Qed.

(** X6.  The two lookups never change the stored rows, on any session and
    whatever they answer or raise.  Unless the flush before the query fails
    with [IntegrityError], the whole session is afterwards what it was
    before: the pending objects and the state of the transaction too. *)
Theorem lookups_read_only (id : UUID) (email : string) (w : World) :
  table (session (snd (find_by_id id w))) = table (session w)
  /\ (fst (find_by_id id w) <> Raise IntegrityError ->
      session (snd (find_by_id id w)) = session w)
  /\ table (session (snd (find_by_email email w))) = table (session w)
  /\ (fst (find_by_email email w) <> Raise IntegrityError ->
      session (snd (find_by_email email w)) = session w).
Proof.
  rewrite find_by_id_lookup, find_by_email_lookup.
  destruct (lookup_reads_only (fun r => UserModel.id r =? UUID_str id) w).
  destruct (lookup_reads_only (fun r => UserModel.email r =? email) w).
  auto.
Qed.

Lemma lookups_read_only_witness :
  let w := {| session :=
                {| table := table (session Sample.test_world);
                   pending := [to_user_model
                                 (User_default Sample.id_b 1700000001%Z
                                    "bob@example.com" "hb")];
                   inactive := false |};
              allocated := 2 |} in
  fst (find_by_id Sample.id_b w) <> Raise IntegrityError
  /\ fst (find_by_email "nobody@example.com" w) <> Raise IntegrityError
  /\ table (session (snd (find_by_id Sample.id_b w))) = table (session w)
  /\ session (snd (find_by_id Sample.id_b w)) = session w
  /\ session (snd (find_by_email "nobody@example.com" w)) = session w.
Proof.
  intros w.
  assert (H1 : fst (find_by_id Sample.id_b w) <> Raise IntegrityError)
    by (vm_compute; discriminate).
  assert (H2 : fst (find_by_email "nobody@example.com" w)
               <> Raise IntegrityError)
    by (vm_compute; discriminate).
  destruct (lookups_read_only Sample.id_b "nobody@example.com" w)
    as (T1 & S1 & _ & S2).
  split; [exact H1 |]. split; [exact H2 |]. split; [exact T1 |].
  split; [exact (S1 H1) | exact (S2 H2)].
Defined.

Lemma existsb_true_find {A} (f : A -> bool) (l : list A) :
  existsb f l = true -> exists a, find f l = Some a /\ In a l /\ f a = true.
Proof.
  induction l as [| b l IH]; simpl; [discriminate |].
  destruct (f b) eqn:E.
  - intros _. exists b. auto.
  - intros H. destruct (IH H) as (a & Hf & Hin & Ha). eauto.
Qed.

(** X7.  On a session between two calls, a stored identifier and a stored
    email are found: the lookup returns a user with that identifier, or
    that email; it returns neither [None] nor raises. *)
Theorem lookups_hit (id : UUID) (email : string) (w : World) :
  session_ok (session w) = true ->
  (id_taken (session w) id = true ->
   exists found,
     find_by_id id w = (Return (Some found), bump 1 w)
     /\ User.id (attrs found) = id)
  /\ (email_taken (session w) email = true ->
      exists found,
        find_by_email email w = (Return (Some found), bump 1 w)
        /\ User.email (attrs found) = email).
Proof.
  intros Hok. destruct (session_ok_inv _ Hok) as (Hp & Hi & Hrows).
  split; intros Ht.
  - destruct (existsb_true_find _ _ Ht) as (r & Hf & _ & Hr).
    apply String.eqb_eq in Hr.
    rewrite find_by_id_lookup, lookup_cases, Hi, Hp. cbn [flush].
    rewrite Hf, Hr, UUID_parse_str.
    eexists; split; reflexivity.
  - destruct (existsb_true_find _ _ Ht) as (r & Hf & Hin & Hr).
    apply String.eqb_eq in Hr.
    destruct (forallb_row_ok _ _ Hrows Hin) as [i Hpi].
    rewrite find_by_email_lookup, lookup_cases, Hi, Hp. cbn [flush].
    rewrite Hf, Hpi.
    eexists; split; [reflexivity | exact Hr].
Qed.

Lemma lookups_hit_witness :
  session_ok (session Sample.test_world) = true
  /\ id_taken (session Sample.test_world) Sample.id_a = true
  /\ email_taken (session Sample.test_world) "test@example.com" = true
  /\ (exists found,
        find_by_id Sample.id_a Sample.test_world
        = (Return (Some found), bump 1 Sample.test_world)
        /\ User.id (attrs found) = Sample.id_a)
  /\ (exists found,
        find_by_email "test@example.com" Sample.test_world
        = (Return (Some found), bump 1 Sample.test_world)
        /\ User.email (attrs found) = "test@example.com").
Proof.
  destruct (lookups_hit Sample.id_a "test@example.com" Sample.test_world
              eq_refl) as [H1 H2].
  split; [reflexivity |]. split; [reflexivity |]. split; [reflexivity |].
  split; [exact (H1 eq_refl) | exact (H2 eq_refl)].
Defined.

(** ** [save] inserts, and only inserts *)

Lemma existsb_snoc {A} (f : A -> bool) (l : list A) (a : A) :
  f a = true -> existsb f (l ++ [a]) = true.
Proof.
  intros H. rewrite existsb_app. simpl. rewrite H.
  now rewrite orb_true_r.
Qed.

(** X8.  [save] never updates a row.  After [save] returned for a user,
    on any session, saving a user with the same identifier or with the same
    email, whatever its other attributes, raises [IntegrityError] and
    leaves the world as it was. *)
Theorem save_never_updates (user again saved : object) (w w' : World) :
  save user w = (Return saved, w') ->
  User.id (attrs again) = User.id (attrs user)
  \/ User.email (attrs again) = User.email (attrs user) ->
  save again w' = (Raise IntegrityError, w').
Proof.
  intros H Hsame.
  destruct (save_return_inv _ _ _ _ H) as (rows & _ & _ & _ & _ & ->).
  apply save_rejected_clean. unfold violates.
  apply orb_true_iff. destruct Hsame as [E | E]; [left | right];
    apply existsb_snoc; cbn [to_user_model UserModel.id UserModel.email];
    rewrite E; apply String.eqb_refl.
Qed.

Lemma save_never_updates_witness :
  let again := {| addr := 9;
                  attrs := User_default Sample.id_a 1700000009%Z
                             "other@example.com" "changed" |} in
  save Sample.test_object (bump 1 Sample.empty_world)
  = (Return {| addr := 1; attrs := Sample.test_user |}, Sample.test_world)
  /\ User.id (attrs again) = User.id (attrs Sample.test_object)
  /\ save again Sample.test_world = (Raise IntegrityError, Sample.test_world).
Proof.
  intros again.
  assert (E : save Sample.test_object (bump 1 Sample.empty_world)
              = (Return {| addr := 1; attrs := Sample.test_user |},
                 Sample.test_world))
    by (vm_compute; reflexivity).
  split; [exact E |]. split; [reflexivity |].
  exact (save_never_updates Sample.test_object again _
           (bump 1 Sample.empty_world) Sample.test_world E
           (or_introl eq_refl)).
Defined.

(** X9.  Whenever [save] raises, on any session, the stored rows are what
    they were and no object was constructed.  The exception is either
    [IntegrityError], after which nothing is pending any more and the
    transaction is usable, or the [PendingRollbackError] of a session whose
    transaction had already failed. *)
Theorem save_raise_keeps_table (user : object) (e : exn) (w w' : World) :
  save user w = (Raise e, w') ->
  table (session w') = table (session w)
  /\ allocated w' = allocated w
  /\ ((e = IntegrityError
       /\ pending (session w') = [] /\ inactive (session w') = false)
      \/ (e = PendingRollbackError /\ inactive (session w) = true)).
Proof.
  destruct w as [[t p i] n].
  unfold save, try_except, bind, session_add, session_commit,
    session_refresh, session_rollback, get_session, put_session, ret, raise,
    bind.
  cbn [session table pending inactive allocated].
  destruct i.
  { cbn [is_IntegrityError]. intros [= <- <-]. cbn. auto 10. }
  rewrite flush_app.
  destruct (flush t p) as [rows |].
  - cbn [flush].
    destruct (violates rows (to_user_model (attrs user))) eqn:Hv.
    + cbn [session table pending inactive allocated is_IntegrityError].
      intros [= <- <-]. cbn. auto 10.
    + cbn [session table pending inactive allocated].
      destruct (violates_false _ _ Hv) as [Hi _].
      rewrite (find_app_none _ rows (to_user_model (attrs user)) Hi)
        by apply String.eqb_refl.
      rewrite to_domain_user_of_model. discriminate.
  - cbn [session table pending inactive allocated is_IntegrityError].
    intros [= <- <-]. cbn. auto 10.
Qed.

Lemma save_raise_keeps_table_witness :
  let again := {| addr := 9;
                  attrs := User_default Sample.id_b 1700000009%Z
                             "test@example.com" "changed" |} in
  save again Sample.test_world = (Raise IntegrityError, Sample.test_world)
  /\ table (session Sample.test_world) = table (session Sample.test_world)
  /\ allocated Sample.test_world = 2.
Proof.
  intros again.
  assert (E : save again Sample.test_world
              = (Raise IntegrityError, Sample.test_world))
    by (vm_compute; reflexivity).
  destruct (save_raise_keeps_table again IntegrityError Sample.test_world
              Sample.test_world E) as (H1 & H2 & _).
  split; [exact E |]. split; [exact H1 | exact H2].
Defined.

Lemma seen_lookup (cond : UserModel.t -> bool) (w : World)
    (rows : list UserModel.t) :
  inactive (session w) = false ->
  flush (table (session w)) (pending (session w)) = Some rows ->
  seen (lookup cond w)
  = match find cond rows with
    | None => Return None
    | Some r =>
        match UUID_parse (UserModel.id r) with
        | Some i => Return (Some (row_attrs i r))
        | None => Raise (ValueError badly_formed)
        end
    end.
Proof.
  intros Hi Hf. rewrite lookup_cases, Hi, Hf.
  destruct (find cond rows) as [r |]; [| reflexivity].
  now destruct (UUID_parse (UserModel.id r)).
Qed.

(** X10.  A returning [save] does not disturb the other users: on any
    session, a lookup by another identifier, or by another email, answers
    after the [save] what it answered before. *)
Theorem save_keeps_other_lookups (user saved : object) (w w' : World)
    (id : UUID) (email : string) :
  save user w = (Return saved, w') ->
  (id <> User.id (attrs user) ->
   seen (find_by_id id w') = seen (find_by_id id w))
  /\ (email <> User.email (attrs user) ->
      seen (find_by_email email w') = seen (find_by_email email w)).
Proof.
  intros H.
  destruct (save_return_inv _ _ _ _ H) as (rows & Hi & Hf & _ & _ & Hw).
  assert (Hi' : inactive (session w') = false) by now rewrite Hw.
  assert (Hf' : flush (table (session w')) (pending (session w'))
                = Some (rows ++ [to_user_model (attrs user)])%list)
    by now rewrite Hw.
  rewrite find_by_id_lookup, find_by_email_lookup.
  split; intros Hne.
  - rewrite (seen_lookup _ w rows Hi Hf), (seen_lookup _ w' _ Hi' Hf').
    rewrite find_app_false; [reflexivity |].
    apply String.eqb_neq. cbn [to_user_model UserModel.id].
    intros E. apply UUID_str_inj in E. congruence.
  - rewrite (seen_lookup _ w rows Hi Hf), (seen_lookup _ w' _ Hi' Hf').
    rewrite find_app_false; [reflexivity |].
    apply String.eqb_neq. cbn [to_user_model UserModel.email]. congruence.
Qed.

Lemma save_keeps_other_lookups_witness :
  let bob := {| addr := 3;
                attrs := User_default Sample.id_b 1700000009%Z
                           "bob@example.com" "hb" |} in
  exists saved w',
    save bob Sample.test_world = (Return saved, w')
    /\ Sample.id_a <> User.id (attrs bob)
    /\ "test@example.com" <> User.email (attrs bob)
    /\ seen (find_by_id Sample.id_a w')
       = seen (find_by_id Sample.id_a Sample.test_world)
    /\ seen (find_by_email "test@example.com" w')
       = seen (find_by_email "test@example.com" Sample.test_world).
Proof.
  intros bob.
  assert (E : save bob Sample.test_world
              = (Return {| addr := 2; attrs := attrs bob |},
                 {| session := stored (to_user_model (attrs bob))
                                 (session Sample.test_world);
                    allocated := 3 |}))
    by (vm_compute; reflexivity).
  assert (Hi : Sample.id_a <> User.id (attrs bob)) by discriminate.
  assert (He : "test@example.com" <> User.email (attrs bob))
    by discriminate.
  destruct (save_keeps_other_lookups bob _ Sample.test_world _ Sample.id_a
              "test@example.com" E) as [H1 H2].
  eexists; eexists. split; [exact E |]. split; [exact Hi |].
  split; [exact He |]. split; [exact (H1 Hi) | exact (H2 He)].
Defined.

(** ** A row whose [id] is not an identifier *)

Lemma UUID_parse_hex (s : string) :
  UUID_parse s
  = if negb (Nat.eqb (List.length (UUID_hex s)) 32) then None
    else match Hex.parse (UUID_hex s) with
         | Some n => UUID_of_int n
         | None => None
         end.
Proof. reflexivity. Qed.

(** X11.  A row whose [id], once [urn:], [uuid:], braces and hyphens are
    removed, has not 32 characters cannot be turned into a user:
    [_to_domain_user] raises the [ValueError] of [UUID].  On a session with
    nothing pending, looking up the email of such a row raises that error,
    and so does [register] for that email, instead of its duplicate error;
    the world is left as it was. *)
Theorem badly_formed_id_raises (r : UserModel.t) (w : World)
    (hasher : string -> string) (uuid4 : UUID) (now : datetime)
    (email password : string) :
  List.length (UUID_hex (UserModel.id r)) <> 32 ->
  _to_domain_user r w = (Raise (ValueError badly_formed), w)
  /\ (pending (session w) = [] -> inactive (session w) = false ->
      find (fun x => UserModel.email x =? email) (table (session w))
      = Some r ->
      find_by_email email w = (Raise (ValueError badly_formed), w)
      /\ register (service hasher) uuid4 now email password w
         = (Raise (ValueError badly_formed), w)).
Proof.
  intros Hlen.
  assert (Hp : UUID_parse (UserModel.id r) = None).
  { rewrite UUID_parse_hex. apply Nat.eqb_neq in Hlen. now rewrite Hlen. }
  split.
  - rewrite to_domain_user_cases. now rewrite Hp.
  - intros Hpend Hin Hf.
    assert (E : find_by_email email w = (Raise (ValueError badly_formed), w)).
    { rewrite find_by_email_lookup, lookup_cases, Hin, Hpend. cbn [flush].
      now rewrite Hf, Hp. }
    split; [exact E |].
    unfold register, service, bind.
    cbn [_repository repo_find_by_email SqlAlchemyUserRepository].
    now rewrite E.
Qed.

Lemma badly_formed_id_raises_witness :
  let r := {| UserModel.id := "42";
              UserModel.email := "old@example.com";
              UserModel.hashed_password := "h";
              UserModel.created_at := 7%Z;
              UserModel.is_active := true |} in
  let w := {| session := {| table := [r]; pending := [];
                            inactive := false |};
              allocated := 0 |} in
  List.length (UUID_hex (UserModel.id r)) <> 32
  /\ _to_domain_user r w = (Raise (ValueError badly_formed), w)
  /\ find_by_email "old@example.com" w = (Raise (ValueError badly_formed), w)
  /\ register (service Sample.tag_hasher) Sample.id_a 8%Z "old@example.com"
       "pw" w
     = (Raise (ValueError badly_formed), w).
Proof.
  intros r w.
  assert (Hlen : List.length (UUID_hex (UserModel.id r)) <> 32)
    by (vm_compute; discriminate).
  destruct (badly_formed_id_raises r w Sample.tag_hasher Sample.id_a 8%Z
              "old@example.com" "pw" Hlen) as [H1 H2].
  destruct (H2 eq_refl eq_refl eq_refl) as [H3 H4].
  split; [exact Hlen |]. split; [exact H1 |]. split; [exact H3 | exact H4].
Defined.

(* ================================================================== *)
(** * Further properties of the registration service                   *)
(* ================================================================== *)

Lemma register_return_inv (hasher : string -> string) (uuid4 : UUID)
    (now : datetime) (email password : string) (w w' : World)
    (user : object) :
  register (service hasher) uuid4 now email password w = (Return user, w') ->
  user = {| addr := allocated w;
            attrs := User_default uuid4 now email (hasher password) |}
  /\ exists saved, save user (bump 1 w) = (Return saved, w').
Proof.
  unfold register, service, bind.
  cbn [_repository _hasher repo_find_by_email repo_save
         SqlAlchemyUserRepository].
  destruct (find_by_email email w) as [[[found |] | e] w1] eqn:Hf;
    try discriminate.
  apply find_by_email_none_inv in Hf. subst w1.
  unfold User_new.
  destruct (save _ _) as [[saved | e] w2] eqn:Hs; [| discriminate].
  unfold ret. intros [= <- <-]. split; [reflexivity |].
  exists saved. exact Hs.
Qed.

(** X12.  On a session between two calls, [register] fails in two ways
    only, and the email is checked first: with the duplicate error when the
    email is stored, whether or not the generated identifier is stored too,
    and with [IntegrityError] when the email is free and the identifier is
    stored.  Either way the session is left as it was. *)
Theorem register_failures (hasher : string -> string) (uuid4 : UUID)
    (now : datetime) (email password : string) (w w' : World) (e : exn) :
  session_ok (session w) = true ->
  register (service hasher) uuid4 now email password w = (Raise e, w') ->
  session w' = session w
  /\ ((e = ValueError (already_registered email)
       /\ email_taken (session w) email = true)
      \/ (e = IntegrityError
          /\ email_taken (session w) email = false
          /\ id_taken (session w) uuid4 = true)).
Proof.
  intros Hok H.
  destruct (email_taken (session w) email) eqn:He.
  { rewrite register_duplicate in H by assumption.
    injection H as <- <-. auto. }
  destruct (id_taken (session w) uuid4) eqn:Hi.
  { rewrite register_collision in H by assumption.
    injection H as <- <-. auto. }
  rewrite register_fresh in H by assumption. discriminate H.
Qed.

Lemma register_failures_witness :
  session_ok (session Sample.test_world) = true
  /\ register (service Sample.tag_hasher) Sample.id_a 1700000006%Z
       "test@example.com" "pw" Sample.test_world
     = (Raise (ValueError (already_registered "test@example.com")),
        bump 1 Sample.test_world)
  /\ session (bump 1 Sample.test_world) = session Sample.test_world.
Proof.
  assert (E : register (service Sample.tag_hasher) Sample.id_a 1700000006%Z
                "test@example.com" "pw" Sample.test_world
              = (Raise (ValueError (already_registered "test@example.com")),
                 bump 1 Sample.test_world))
    by (vm_compute; reflexivity).
  split; [reflexivity |]. split; [exact E |].
  exact (proj1 (register_failures Sample.tag_hasher Sample.id_a
                  1700000006%Z "test@example.com" "pw" Sample.test_world
                  _ _ eq_refl E)).
Defined.

(** ** Sequences of registrations *)

Lemma id_taken_notin (s : Session) (id : UUID) :
  id_taken s id = false ->
  ~ In (UUID_str id) (map UserModel.id (table s)).
Proof.
  unfold id_taken. induction (table s) as [| r t IH]; simpl; [tauto |].
  destruct (UserModel.id r =? UUID_str id) eqn:E; [discriminate |].
  apply String.eqb_neq in E. intros H [H1 | H1]; [easy | now apply IH].
Qed.

Lemma registers_inv (w w' : World) :
  session_ok (session w) = true ->
  registers w w' ->
  session_ok (session w') = true
  /\ (exists more, table (session w') = (table (session w) ++ more)%list)
  /\ (NoDup (map UserModel.id (table (session w))) ->
      NoDup (map UserModel.id (table (session w')))).
Proof.
  intros Hok. induction 1 as [| w' hasher uuid4 now email password _ IH].
  - split; [assumption |]. split; [| auto].
    exists []. now rewrite app_nil_r.
  - destruct IH as (Hok' & [more Hmore] & Hnd).
    rewrite register_session by assumption.
    destruct (email_taken (session w') email); cbn [orb].
    { split; [assumption |]. split; [now exists more | assumption]. }
    destruct (id_taken (session w') uuid4) eqn:Hi.
    { split; [assumption |]. split; [now exists more | assumption]. }
    split; [now apply stored_ok |]. split.
    + eexists. unfold stored. cbn [table]. rewrite Hmore, <- app_assoc.
      reflexivity.
    + intros H0. specialize (Hnd H0). unfold stored. cbn [table].
      rewrite map_app. apply NoDup_app; [assumption | |].
      * cbn [map]. constructor; [simpl; tauto | constructor].
      * intros a Ha [<- | []]. revert Ha.
        cbn [to_user_model UserModel.id User_default User.id].
        now apply id_taken_notin.
Qed.

(** X13.  A sequence of [register] calls started on a session between two
    calls leaves such a session after every call, returning or raising:
    nothing is pending, the transaction is usable and every stored row can
    be read back. *)
Theorem registers_leave_session_clean (w w' : World) :
  session_ok (session w) = true ->
  registers w w' ->
  session_ok (session w') = true.
Proof.
  intros Hok H. now destruct (registers_inv w w' Hok H).
Qed.

Lemma registers_leave_session_clean_witness :
  let w2 := snd (register (service Sample.plain_hasher) Sample.id_b
                   1700000001%Z "test@example.com" "other"
                   (snd (register (service Sample.tag_hasher) Sample.id_a
                           1700000000%Z "test@example.com" "pw"
                           Sample.empty_world))) in
  session_ok (session Sample.empty_world) = true
  /\ registers Sample.empty_world w2
  /\ session_ok (session w2) = true.
Proof.
  intros w2.
  assert (R : registers Sample.empty_world w2)
    by apply registers_more, registers_more, registers_none.
  split; [reflexivity |]. split; [exact R |].
  exact (registers_leave_session_clean Sample.empty_world w2 eq_refl R).
Defined.

(** X14.  [register] never removes or changes a stored row: after any
    sequence of calls the table is the earlier table followed by the rows
    added since. *)
Theorem registers_only_append (w w' : World) :
  session_ok (session w) = true ->
  registers w w' ->
  exists more, table (session w') = (table (session w) ++ more)%list.
Proof.
  intros Hok H. now destruct (registers_inv w w' Hok H) as (_ & Hm & _).
Qed.

Lemma registers_only_append_witness :
  let w2 := snd (register (service Sample.plain_hasher) Sample.id_b
                   1700000001%Z "test@example.com" "other"
                   (snd (register (service Sample.tag_hasher) Sample.id_a
                           1700000000%Z "test@example.com" "pw"
                           Sample.empty_world))) in
  session_ok (session Sample.empty_world) = true
  /\ registers Sample.empty_world w2
  /\ exists more,
       table (session w2)
       = (table (session Sample.empty_world) ++ more)%list.
Proof.
  intros w2.
  assert (R : registers Sample.empty_world w2)
    by apply registers_more, registers_more, registers_none.
  split; [reflexivity |]. split; [exact R |].
  exact (registers_only_append Sample.empty_world w2 eq_refl R).
Defined.

(** X15.  The primary key stays a key: when the stored identifiers are
    pairwise distinct, they are still so after any sequence of [register]
    calls. *)
Theorem registers_keep_ids_distinct (w w' : World) :
  session_ok (session w) = true ->
  NoDup (map UserModel.id (table (session w))) ->
  registers w w' ->
  NoDup (map UserModel.id (table (session w'))).
Proof.
  intros Hok Hnd H. destruct (registers_inv w w' Hok H) as (_ & _ & Hk).
  now apply Hk.
Qed.

Lemma registers_keep_ids_distinct_witness :
  let w2 := snd (register (service Sample.plain_hasher) Sample.id_b
                   1700000001%Z "bob@example.com" "other"
                   (snd (register (service Sample.tag_hasher) Sample.id_a
                           1700000000%Z "test@example.com" "pw"
                           Sample.empty_world))) in
  session_ok (session Sample.empty_world) = true
  /\ NoDup (map UserModel.id (table (session Sample.empty_world)))
  /\ registers Sample.empty_world w2
  /\ NoDup (map UserModel.id (table (session w2))).
Proof.
  intros w2.
  assert (R : registers Sample.empty_world w2)
    by apply registers_more, registers_more, registers_none.
  split; [reflexivity |]. split; [constructor |]. split; [exact R |].
  exact (registers_keep_ids_distinct Sample.empty_world w2 eq_refl
           (NoDup_nil _) R).
Defined.

(** X16.  An email, once stored, stays refused: after any further sequence
    of [register] calls, registering it again raises the duplicate error
    and leaves the session as it is, whatever the password, the hasher and
    the generated identifier. *)
Theorem registered_email_stays_refused (w w' : World)
    (hasher : string -> string) (uuid4 : UUID) (now : datetime)
    (email password : string) :
  session_ok (session w) = true ->
  email_taken (session w) email = true ->
  registers w w' ->
  email_taken (session w') email = true
  /\ register (service hasher) uuid4 now email password w'
     = (Raise (ValueError (already_registered email)), bump 1 w').
Proof.
  intros Hok Ht H.
  destruct (registers_inv w w' Hok H) as (Hok' & [more Hm] & _).
  assert (Ht' : email_taken (session w') email = true).
  { unfold email_taken in *. rewrite Hm, existsb_app, Ht. reflexivity. }
  split; [exact Ht' | now apply register_duplicate].
Qed.

Lemma registered_email_stays_refused_witness :
  let w' := snd (register (service Sample.tag_hasher) Sample.id_b
                   1700000001%Z "bob@example.com" "pw" Sample.test_world) in
  session_ok (session Sample.test_world) = true
  /\ email_taken (session Sample.test_world) "test@example.com" = true
  /\ registers Sample.test_world w'
  /\ email_taken (session w') "test@example.com" = true
  /\ register (service Sample.plain_hasher) Sample.id_a 1700000002%Z
       "test@example.com" "again" w'
     = (Raise (ValueError (already_registered "test@example.com")),
        bump 1 w').
Proof.
  intros w'.
  assert (R : registers Sample.test_world w')
    by apply registers_more, registers_none.
  split; [reflexivity |]. split; [reflexivity |]. split; [exact R |].
  exact (registered_email_stays_refused Sample.test_world w'
           Sample.plain_hasher Sample.id_a 1700000002%Z "test@example.com"
           "again" eq_refl eq_refl R).
Defined.

(** X17.  A user [register] returned can be looked up at once, on any
    session: [find_by_email] of the email and [find_by_id] of the returned
    identifier both answer a user with the attributes of the returned
    one. *)
Theorem register_then_lookup (hasher : string -> string) (uuid4 : UUID)
    (now : datetime) (email password : string) (w w' : World)
    (user : object) :
  register (service hasher) uuid4 now email password w = (Return user, w') ->
  seen (find_by_email email w') = Return (Some (attrs user))
  /\ seen (find_by_id (User.id (attrs user)) w')
     = Return (Some (attrs user)).
Proof.
  intros H.
  destruct (register_return_inv _ _ _ _ _ _ _ _ H) as (Hu & saved & Hs).
  destruct (save_return_inv _ _ _ _ Hs) as (rows & _ & _ & Hv & _ & Hw).
  assert (Hi' : inactive (session w') = false) by now rewrite Hw.
  assert (Hf' : flush (table (session w')) (pending (session w'))
                = Some (rows ++ [to_user_model (attrs user)])%list)
    by now rewrite Hw.
  destruct (violates_false _ _ Hv) as [Hfi Hfe].
  cbn [to_user_model UserModel.id UserModel.email] in Hfi, Hfe.
  rewrite find_by_id_lookup, find_by_email_lookup.
  rewrite (seen_lookup _ w' _ Hi' Hf'), (seen_lookup _ w' _ Hi' Hf').
  assert (Hm : User.email (attrs user) = email) by now rewrite Hu.
  rewrite <- Hm.
  rewrite (find_app_none _ rows (to_user_model (attrs user)) Hfe)
    by apply String.eqb_refl.
  rewrite (find_app_none _ rows (to_user_model (attrs user)) Hfi)
    by apply String.eqb_refl.
  cbn [to_user_model UserModel.id]. rewrite UUID_parse_str.
  split; f_equal; f_equal; now destruct (attrs user).
Qed.

Lemma register_then_lookup_witness :
  exists user w',
    register (service Sample.tag_hasher) Sample.id_b 1700000001%Z
      "bob@example.com" "hunter2" Sample.test_world = (Return user, w')
    /\ seen (find_by_email "bob@example.com" w')
       = Return (Some (attrs user))
    /\ seen (find_by_id Sample.id_b w') = Return (Some (attrs user)).
Proof.
  assert (E : register (service Sample.tag_hasher) Sample.id_b 1700000001%Z
                "bob@example.com" "hunter2" Sample.test_world
              = (Return {| addr := 2;
                           attrs := User_default Sample.id_b 1700000001%Z
                                      "bob@example.com"
                                      (Sample.tag_hasher "hunter2") |},
                 {| session :=
                      stored (to_user_model
                                (User_default Sample.id_b 1700000001%Z
                                   "bob@example.com"
                                   (Sample.tag_hasher "hunter2")))
                        (session Sample.test_world);
                    allocated := 4 |}))
    by (vm_compute; reflexivity).
  eexists; eexists. split; [exact E |].
  exact (register_then_lookup Sample.tag_hasher Sample.id_b 1700000001%Z
           "bob@example.com" "hunter2" Sample.test_world _ _ E).
Defined.

(* ================================================================== *)
(** * Sessions and tokens of [example_data_separation.py]              *)
(* ================================================================== *)

Lemma dict_get_set_same {V : Type} (key : string) (value : V)
    (d : list (string * V)) :
  Dict.get key (Dict.set key value d) = Some value.
Proof.
  induction d as [| [k v] d IH]; simpl.
  - now rewrite String.eqb_refl.
  - destruct (k =? key) eqn:E; simpl; rewrite E; [reflexivity | exact IH].
Qed.

Lemma dict_get_set_other {V : Type} (key other : string) (value : V)
    (d : list (string * V)) :
  other <> key ->
  Dict.get other (Dict.set key value d) = Dict.get other d.
Proof.
  intros Hne. induction d as [| [k v] d IH]; simpl.
  - apply not_eq_sym, String.eqb_neq in Hne. now rewrite Hne.
  - destruct (k =? key) eqn:E; simpl.
    + apply String.eqb_eq in E. subst k.
      apply not_eq_sym, String.eqb_neq in Hne. now rewrite Hne.
    + destruct (k =? other); [reflexivity | exact IH].
Qed.

Lemma session_key_inj (a b : string) : session_key a = session_key b -> a = b.
Proof. unfold session_key. simpl. now intros [= H]. Qed.

(** X18.  With the mock client, a session that was saved is read back
    whatever the expiry asked for, also over an older session of the same
    user: [get_user_session] answers [json.loads] of what [json.dumps] gave,
    and [None] in the one case where that text is empty. *)
Theorem session_read_back {D R : Type} (json_dumps : D -> string)
    (json_loads : string -> R) (user_id : string) (session_data : D)
    (redis_client : MockRedis) :
  get_user_session json_loads user_id
    (save_user_session json_dumps user_id session_data redis_client)
  = if str_bool (json_dumps session_data)
    then Some (json_loads (json_dumps session_data))
    else None.
Proof.
  unfold get_user_session, save_user_session, MockRedis_get, MockRedis_setex.
  cbn [data]. now rewrite dict_get_set_same.
Qed.

(** X19.  With the mock client, saving the session of one user changes
    the session of no other user. *)
Theorem session_of_other_user_kept {D R : Type} (json_dumps : D -> string)
    (json_loads : string -> R) (user_id other_id : string)
    (session_data : D) (redis_client : MockRedis) :
  other_id <> user_id ->
  get_user_session json_loads other_id
    (save_user_session json_dumps user_id session_data redis_client)
  = get_user_session json_loads other_id redis_client.
Proof.
  intros Hne.
  unfold get_user_session, save_user_session, MockRedis_get, MockRedis_setex.
  cbn [data]. rewrite dict_get_set_other; [reflexivity |].
  intros E. apply session_key_inj in E. contradiction.
Qed.

Lemma session_of_other_user_kept_witness :
  let dumps := fun d : string => "{" ++ d ++ "}" in
  let loads := fun s : string => s in
  let client := save_user_session dumps "u1" "a" MockRedis_init in
  "u1" <> "u2"
  /\ get_user_session loads "u1" (save_user_session dumps "u2" "b" client)
     = get_user_session loads "u1" client
  /\ get_user_session loads "u1" client = Some "{a}".
Proof.
  intros dumps loads client.
  assert (Hne : "u1" <> "u2") by discriminate.
  split; [exact Hne |]. split; [| reflexivity].
  exact (session_of_other_user_kept dumps loads "u2" "u1" "b" client Hne).
Defined.

Lemma append_inv_head (p a b : string) : p ++ a = p ++ b -> a = b.
Proof.
  induction p as [| c p IH]; simpl; [easy |].
  intros [= H]. now apply IH.
Qed.

(** X20.  The tokens of two different users differ. *)
Theorem generate_jwt_token_inj (a b : UUID) :
  a <> b -> generate_jwt_token a <> generate_jwt_token b.
Proof.
  intros Hne E. apply Hne. unfold generate_jwt_token in E.
  apply append_inv_head in E. now apply UUID_str_inj.
Qed.

Lemma generate_jwt_token_inj_witness :
  Sample.id_a <> Sample.id_b
  /\ generate_jwt_token Sample.id_a <> generate_jwt_token Sample.id_b
  /\ generate_jwt_token Sample.id_a
     = "jwt_token_123e4567-e89b-42d3-a456-426614174000".
Proof.
  assert (Hne : Sample.id_a <> Sample.id_b) by discriminate.
  split; [exact Hne |].
  split; [exact (generate_jwt_token_inj Sample.id_a Sample.id_b Hne) |].
  vm_compute; reflexivity.
Defined.
